(** * The OpenVINO image-classifier plugin (dllmain.cpp), embedded in Rocq

    The plugin exports four C functions over a bundle of global variables:
    [GetDeviceCount], [GetDeviceName], [LoadModel] and [PerformInference].
    The globals become a record [State]; every exported function becomes a
    computation in a state-and-exception monad whose outcomes are a normal
    return, a C++ exception leaving the function, or undefined behaviour.
    The OpenVINO runtime is a parameter (a record of operations, each of
    which may throw); 32-bit [int] values are integers with their range
    written out; [float] is IEEE binary32, through [SpecFloat]. *)

From Stdlib Require Import ZArith String Ascii List Bool Lia QArith Qabs.
From Stdlib Require Import Floats.SpecFloat.
From Stdlib Require Strings.Byte.
From stdpp Require Import base option list.

Local Open Scope Z_scope.

(** ** Machine integers *)

Module Int.

Definition min_int : Z := - 2 ^ 31.
Definition max_int : Z := 2 ^ 31 - 1.

Definition in_range (z : Z) : bool := (min_int <=? z) && (z <=? max_int).

(** Conversion of a [size_t] (or [ptrdiff_t]) to [int]: the value modulo
    2^32, read as two's complement. *)
Definition of_size_t (n : Z) : Z := (n + 2 ^ 31) mod 2 ^ 32 - 2 ^ 31.

End Int.

(** ** binary32 floats *)

Module F32.

Definition prec : Z := 24.
Definition emax : Z := 128.

Definition t : Type := spec_float.

(** Conversion of an [int] to [float] (round to nearest even). *)
Definition of_int (z : Z) : t := binary_normalize prec emax z 0 false.

Definition div (x y : t) : t := SFdiv prec emax x y.
Definition ltb (x y : t) : bool := SFltb x y.
Definition leb (x y : t) : bool := SFleb x y.

Definition is_nan (x : t) : bool :=
  match x with S754_nan => true | _ => false end.

Definition zero : t := S754_zero false.
Definition one : t := of_int 1.

(** The literal [255.0f]. *)
Definition c255 : t := of_int 255.

(** The literal [0.5f]. *)
Definition half : t := div one (of_int 2).

(** The exact rational value of a finite float. *)
Definition to_Q (x : t) : Q :=
  match x with
  | S754_finite s m e =>
      let v := if (0 <=? e)%Z then inject_Z (Z.pos m * 2 ^ e)
               else Qmake (Z.pos m) (2 ^ Z.to_pos (- e)) in
      if s then Qopp v else v
  | _ => 0%Q
  end.

End F32.

(** ** Outcomes of library calls and of the plugin's own functions *)

(** A call into OpenVINO or OpenCV either returns or throws; [catch (...)]
    does not look at the exception, so it carries no payload. *)
Inductive result (A : Type) : Type :=
| Ok (a : A)
| Throws.
Arguments Ok {A} a.
Arguments Throws {A}.

(** What a function of the plugin does from a given state: return a value,
    leave by an exception (with the globals as they are then), or run into
    undefined behaviour (an access outside a buffer, a signed overflow). *)
Inductive outcome (S A : Type) : Type :=
| Ret (a : A) (s : S)
| Exn (s : S)
| Undef.
Arguments Ret {S A} a s.
Arguments Exn {S A} s.
Arguments Undef {S A}.

(** ** The OpenVINO runtime, as far as the plugin uses it *)

Abbreviation Shape := (list Z).

Inductive element_type : Type := f32 | f16 | i32 | i64 | u8.

Inductive property : Type :=
| cache_dir (dir : string)
| device_priorities (device : string)
| performance_mode_LATENCY
| inference_precision (ty : element_type).

Record Tensor : Type := mkTensor {
  t_shape : Shape;
  t_type : element_type;
  t_data : list F32.t
}.

Record Runtime : Type := mkRuntime {
  Core : Type;
  Model : Type;
  CompiledModel : Type;
  InferRequest : Type;
  (* ov::Core *)
  get_available_devices : Core -> result (list string);
  set_property : Core -> string -> property -> result Core;
  read_model : Core -> string -> result Model;
  compile_model : Core -> Model -> string -> list property -> result CompiledModel;
  (* ov::Model::reshape; a throwing reshape leaves the model as it was *)
  reshape : Model -> Shape -> result Model;
  (* ov::CompiledModel: output().get_shape() and create_infer_request() *)
  output_shape : CompiledModel -> result Shape;
  create_infer_request : CompiledModel -> result InferRequest;
  (* ov::InferRequest; [infer] reads the storage of the input tensor *)
  get_input_tensor : InferRequest -> Z -> result Tensor;
  infer : InferRequest -> list F32.t -> result InferRequest;
  get_output_tensor : InferRequest -> result Tensor
}.

(** [tensor.data<float>()] throws unless the element type is [f32]. *)
Definition data_float (t : Tensor) : result (list F32.t) :=
  match t_type t with
  | f32 => Ok (t_data t)
  | _ => Throws
  end.

(** ** OpenCV *)

Record Mat : Type := mkMat {
  rows : Z;
  cols : Z;
  channels : Z;
  data : list Byte.byte
}.

(** [cv::Mat(rows, cols, CV_8UC4, ptr)]: a header over the caller's bytes,
    nothing is copied or checked. *)
Definition Mat_8UC4 (h w : Z) (ptr : list Byte.byte) : Mat :=
  {| rows := h; cols := w; channels := 4; data := ptr |}.

(** The bytes of [n] RGBA pixels without their fourth byte; [None] when the
    buffer ends before the last pixel. *)
Fixpoint strip_alpha (n : nat) (rgba : list Byte.byte) : option (list Byte.byte) :=
  match n with
  | O => Some []
  | S n' =>
      match rgba with
      | r :: g :: b :: _ :: rest =>
          match strip_alpha n' rest with
          | Some out => Some (r :: g :: b :: out)
          | None => None
          end
      | _ => None
      end
  end.

(** Modelled from the spec: [cv::cvtColor(src, dst, cv::COLOR_RGBA2RGB)] is
    OpenCV's, not this repository's. It "strips alpha", after which "the
    working image is interleaved H·W·3 bytes"; OpenCV rejects an empty
    image by an exception, and reading pixels the buffer does not hold is
    undefined. The outer option is [None] for undefined behaviour. *)
Definition cvtColor_RGBA2RGB (src : Mat) : option (result Mat) :=
  if (rows src <=? 0) || (cols src <=? 0) then Some Throws
  else
    match strip_alpha (Z.to_nat (rows src * cols src)) (data src) with
    | Some rgb =>
        Some (Ok {| rows := rows src; cols := cols src; channels := 3; data := rgb |})
    | None => None
    end.

(** ** The globals of the plugin *)

(** [input_data] is null, or points at the first float of the storage
    of [input_tensor] (kept once, in the tensor), or at storage released since. *)
Inductive float_ptr : Type := null_ptr | input_storage | dangling.

Section Plugin.

Context (rt : Runtime).

Record State : Type := mkState {
  core : Core rt;
  model : option (Model rt);
  compiled_model : option (CompiledModel rt);
  available_devices : list string;
  infer_request : option (InferRequest rt);
  input_tensor : option Tensor;
  input_data : float_ptr;
  num_classes : Z;
  input_w : Z;
  input_h : Z;
  nPixels : Z
}.

(** [int num_channels = 3] is never assigned. *)
Definition num_channels : Z := 3.

(** The globals at module initialisation, for a freshly constructed core. *)
Definition initial_state (c : Core rt) : State :=
  {| core := c; model := None; compiled_model := None;
     available_devices := []; infer_request := None;
     input_tensor := None; input_data := null_ptr;
     num_classes := 0; input_w := 0; input_h := 0; nPixels := 0 |}.

(** *** The monad *)

Definition M (A : Type) : Type := State -> outcome State A.

Definition ret {A} (a : A) : M A := fun s => Ret a s.

Definition bind {A B} (m : M A) (k : A -> M B) : M B :=
  fun s =>
    match m s with
    | Ret a s' => k a s'
    | Exn s' => Exn s'
    | Undef => Undef
    end.

Definition undefined {A} : M A := fun _ => Undef.
Definition throw {A} : M A := fun s => Exn s.
Definition gets {A} (f : State -> A) : M A := fun s => Ret (f s) s.
Definition modify (f : State -> State) : M unit := fun s => Ret tt (f s).

(** A library call: its exception becomes ours. *)
Definition call {A} (r : result A) : M A :=
  match r with
  | Ok a => ret a
  | Throws => throw
  end.

(** [try { body } catch (...) { handler }]. *)
Definition try_catch {A} (body handler : M A) : M A :=
  fun s =>
    match body s with
    | Exn s' => handler s'
    | o => o
    end.

End Plugin.

Arguments ret {rt A} a.
Arguments bind {rt A B} m k.
Arguments undefined {rt A}.
Arguments throw {rt A}.
Arguments gets {rt A} f.
Arguments modify {rt} f.
Arguments call {rt A} r.
Arguments try_catch {rt A} body handler.
Arguments mkState {rt}.
Arguments core {rt}.
Arguments model {rt}.
Arguments compiled_model {rt}.
Arguments available_devices {rt}.
Arguments infer_request {rt}.
Arguments input_tensor {rt}.
Arguments input_data {rt}.
Arguments num_classes {rt}.
Arguments input_w {rt}.
Arguments input_h {rt}.
Arguments nPixels {rt}.

Notation "x <- m ;; k" := (bind m (fun x => k))
  (at level 100, m at next level, right associativity, only parsing).
Notation "m ;;; k" := (bind m (fun _ => k))
  (at level 100, right associativity, only parsing).


(** ** Helpers shared by the exported functions *)

Section Helpers.

Context {rt : Runtime}.

Definition set_core (c : Core rt) (s : State rt) : State rt :=
  mkState c (model s) (compiled_model s) (available_devices s)
    (infer_request s) (input_tensor s) (input_data s) (num_classes s)
    (input_w s) (input_h s) (nPixels s).

Definition set_model (m : option (Model rt)) (s : State rt) : State rt :=
  mkState (core s) m (compiled_model s) (available_devices s)
    (infer_request s) (input_tensor s) (input_data s) (num_classes s)
    (input_w s) (input_h s) (nPixels s).

Definition set_available_devices (l : list string) (s : State rt) : State rt :=
  mkState (core s) (model s) (compiled_model s) l
    (infer_request s) (input_tensor s) (input_data s) (num_classes s)
    (input_w s) (input_h s) (nPixels s).

Definition set_infer_request (r : option (InferRequest rt)) (s : State rt) : State rt :=
  mkState (core s) (model s) (compiled_model s) (available_devices s)
    r (input_tensor s) (input_data s) (num_classes s)
    (input_w s) (input_h s) (nPixels s).

Definition set_input_tensor (t : option Tensor) (s : State rt) : State rt :=
  mkState (core s) (model s) (compiled_model s) (available_devices s)
    (infer_request s) t (input_data s) (num_classes s)
    (input_w s) (input_h s) (nPixels s).

Definition set_input_data (p : float_ptr) (s : State rt) : State rt :=
  mkState (core s) (model s) (compiled_model s) (available_devices s)
    (infer_request s) (input_tensor s) p (num_classes s)
    (input_w s) (input_h s) (nPixels s).

Definition set_num_classes (n : Z) (s : State rt) : State rt :=
  mkState (core s) (model s) (compiled_model s) (available_devices s)
    (infer_request s) (input_tensor s) (input_data s) n
    (input_w s) (input_h s) (nPixels s).

Definition set_input_w (n : Z) (s : State rt) : State rt :=
  mkState (core s) (model s) (compiled_model s) (available_devices s)
    (infer_request s) (input_tensor s) (input_data s) (num_classes s)
    n (input_h s) (nPixels s).

Definition set_input_h (n : Z) (s : State rt) : State rt :=
  mkState (core s) (model s) (compiled_model s) (available_devices s)
    (infer_request s) (input_tensor s) (input_data s) (num_classes s)
    (input_w s) n (nPixels s).

Definition set_nPixels (n : Z) (s : State rt) : State rt :=
  mkState (core s) (model s) (compiled_model s) (available_devices s)
    (infer_request s) (input_tensor s) (input_data s) (num_classes s)
    (input_w s) (input_h s) n.

(** [input_tensor = t]: the tensor held before is released, and with it the
    storage a pointer cached earlier looked into. *)
Definition assign_input_tensor (t : Tensor) (s : State rt) : State rt :=
  set_input_data
    (match input_data s with null_ptr => null_ptr | _ => dangling end)
    (set_input_tensor (Some t) s).

(** Signed [int] arithmetic: overflow is undefined. *)
Definition int_mul (a b : Z) : M rt Z :=
  if Int.in_range (a * b) then ret (a * b) else undefined.

Definition int_add (a b : Z) : M rt Z :=
  if Int.in_range (a + b) then ret (a + b) else undefined.

(** [v[i]] on a [std::vector] or through a pointer, with an [int] or
    [size_t] index: undefined outside the elements. *)
Definition at_index {A} (v : list A) (i : Z) : M rt A :=
  if i <? 0 then undefined
  else match v !! Z.to_nat i with
       | Some a => ret a
       | None => undefined
       end.

(** Range-based [for] over a vector. *)
Fixpoint for_each {A} (l : list A) (body : A -> M rt unit) : M rt unit :=
  match l with
  | [] => ret tt
  | a :: l' => body a ;;; for_each l' body
  end.

(** [for (int i = lo; i < lo + n; i++) body(i)]. *)
Fixpoint for_loop (n : nat) (i : Z) (body : Z -> M rt unit) : M rt unit :=
  match n with
  | O => ret tt
  | S n' => body i ;;; for_loop n' (i + 1) body
  end.

(** [s.find(pat)], with [None] for [std::string::npos]. *)
Definition find (s pat : string) : option nat := String.index 0 pat s.

(** [std::max_element(first, first + n)] over floats, as an offset from
    [first]; [None] when it reads outside the buffer or the range is
    reversed. The loop keeps the earlier element unless a later one is
    strictly greater. *)
Fixpoint max_element_loop (out : list F32.t) (largest first : nat) (todo : nat)
  : option nat :=
  match todo with
  | O => Some largest
  | S todo' =>
      match out !! largest, out !! first with
      | Some a, Some b =>
          max_element_loop out (if F32.ltb a b then first else largest)
            (S first) todo'
      | _, _ => None
      end
  end.

Definition max_element (out : list F32.t) (n : Z) : option Z :=
  if n <? 0 then None
  else if n =? 0 then Some 0
  else Z.of_nat <$> max_element_loop out 0 1 (Z.to_nat n - 1).

(** [input_data[i] = v]. *)
Definition store_input (i : Z) (v : F32.t) : M rt unit :=
  fun s =>
    match input_data s, input_tensor s with
    | input_storage, Some t =>
        if (0 <=? i) && (i <? Z.of_nat (length (t_data t))) then
          Ret tt (set_input_tensor
                    (Some (mkTensor (t_shape t) (t_type t)
                                    (<[Z.to_nat i := v]> (t_data t)))) s)
        else Undef
    | _, _ => Undef
    end.

(** The floats the infer request reads as its input. *)
Definition input_floats (s : State rt) : list F32.t :=
  match input_tensor s with
  | Some t => t_data t
  | None => []
  end.

(** The normalisation of one colour byte: [b / 255.0f]. *)
Definition normalize (b : Byte.byte) : F32.t :=
  F32.div (F32.of_int (Z.of_N (Byte.to_N b))) F32.c255.

(** *** The exported functions *)

Definition GetDeviceCount : M rt Z :=
  modify (set_available_devices []) ;;;
  c <- gets core ;;
  devices <- call (get_available_devices rt c) ;;
  for_each devices (fun device =>
    match find device "GNA" with
    | None => modify (fun s => set_available_devices (available_devices s ++ [device]) s)
    | Some _ => ret tt
    end) ;;;
  devs <- gets available_devices ;;
  ret (Int.of_size_t (Z.of_nat (length devs))).

Definition GetDeviceName (index : Z) : M rt string :=
  devs <- gets available_devices ;;
  at_index devs index.

(** [inputDims] points at two ints, width then height. *)
Definition LoadModel (modelPath : string) (index : Z) (inputDims : Z * Z) : M rt Z :=
  let return_val := 0 in
  c <- gets core ;;
  c <- call (set_property rt c "GPU" (cache_dir "cache")) ;;
  modify (set_core c) ;;;
  loaded <- try_catch
              (c <- gets core ;;
               m <- call (read_model rt c modelPath) ;;
               modify (set_model (Some m)) ;;;
               ret true)
              (ret false) ;;
  if negb loaded then ret 1
  else
    return_val <- try_catch
                    (m <- gets model ;;
                     match m with
                     | None => undefined
                     | Some m =>
                         m <- call (reshape rt m [1; 3; snd inputDims; fst inputDims]) ;;
                         modify (set_model (Some m)) ;;;
                         ret return_val
                     end)
                    (ret 2) ;;
    c <- gets core ;;
    m <- gets model ;;
    devs <- gets available_devices ;;
    device <- at_index devs index ;;
    match m with
    | None => undefined
    | Some m =>
        compiled_model <- call (compile_model rt c m "MULTI"
                                  [device_priorities device;
                                   performance_mode_LATENCY;
                                   inference_precision f32]) ;;
        output <- call (output_shape rt compiled_model) ;;
        n <- at_index output 1 ;;
        modify (set_num_classes (Int.of_size_t n)) ;;;
        r <- call (create_infer_request rt compiled_model) ;;
        modify (set_infer_request (Some r)) ;;;
        t <- call (get_input_tensor rt r 0) ;;
        modify (assign_input_tensor t) ;;;
        w <- at_index (t_shape t) 3 ;;
        modify (set_input_w (Int.of_size_t w)) ;;;
        h <- at_index (t_shape t) 2 ;;
        modify (set_input_h (Int.of_size_t h)) ;;;
        w <- gets input_w ;;
        h <- gets input_h ;;
        n <- int_mul w h ;;
        modify (set_nPixels n) ;;;
        _ <- call (data_float t) ;;
        modify (set_input_data input_storage) ;;;
        ret return_val
    end.

(** The two nested loops of [PerformInference] over the converted image. *)
Definition fill_input (texture : Mat) : M rt unit :=
  n <- gets nPixels ;;
  for_loop (Z.to_nat n) 0 (fun p =>
    for_loop (Z.to_nat num_channels) 0 (fun ch =>
      n <- gets nPixels ;;
      src <- int_mul p num_channels ;;
      src <- int_add src ch ;;
      b <- at_index (data texture) src ;;
      dst <- int_mul ch n ;;
      dst <- int_add dst p ;;
      store_input dst (normalize b))).

(** The [try] block of [PerformInference], up to the value it assigns to
    [class_idx]. [infer()] changes the request object behind the global
    handle, which the model records in [infer_request]. *)
Definition inference_body (inputData : list Byte.byte) : M rt Z :=
  h <- gets input_h ;;
  w <- gets input_w ;;
  let texture := Mat_8UC4 h w inputData in
  texture <- match cvtColor_RGBA2RGB texture with
             | Some r => call r
             | None => undefined
             end ;;
  fill_input texture ;;;
  r <- gets infer_request ;;
  match r with
  | None => throw
  | Some r =>
      buf <- gets input_floats ;;
      r <- call (infer rt r buf) ;;
      modify (set_infer_request (Some r)) ;;;
      output_tensor <- call (get_output_tensor rt r) ;;
      out_data <- call (data_float output_tensor) ;;
      n <- gets num_classes ;;
      match max_element out_data n with
      | Some i => ret (Int.of_size_t i)
      | None => undefined
      end
  end.

(** [class_idx] starts at [-1]; both the end of the [try] block and the
    handler assign it before it is returned. *)
Definition PerformInference (inputData : list Byte.byte) : M rt Z :=
  let class_idx := -1 in
  class_idx <- try_catch (inference_body inputData) (ret (-2)) ;;
  ret class_idx.

End Helpers.

(** ** A test double for the runtime *)

Module TestDouble.

(** What the double reports and accepts. A model is its input shape; the
    compiled model and the infer request keep that shape; every forward
    pass yields the same [logits]. *)
Record config : Type := mkConfig {
  devices : list string;
  model_file : string;
  native_shape : Shape;
  accepts_reshape : bool;
  compiles : bool;
  logits : list F32.t
}.

Definition shape_size (shp : Shape) : nat :=
  Z.to_nat (fold_right Z.mul 1 shp).

Definition runtime (cfg : config) : Runtime :=
  {| Core := list (string * property);
     Model := Shape;
     CompiledModel := Shape;
     InferRequest := Shape;
     get_available_devices := fun _ => Ok (devices cfg);
     set_property := fun c dev p => Ok ((dev, p) :: c);
     read_model := fun _ path =>
       if String.eqb path (model_file cfg) then Ok (native_shape cfg) else Throws;
     compile_model := fun _ m _ _ => if compiles cfg then Ok m else Throws;
     reshape := fun m shp => if accepts_reshape cfg then Ok shp else Throws;
     output_shape := fun _ => Ok [1; Z.of_nat (length (logits cfg))];
     create_infer_request := fun cm => Ok cm;
     get_input_tensor := fun r _ =>
       Ok (mkTensor r f32 (repeat F32.zero (shape_size r)));
     infer := fun r _ => Ok r;
     get_output_tensor := fun _ =>
       Ok (mkTensor [1; Z.of_nat (length (logits cfg))] f32 (logits cfg)) |}.

(** A CPU and a GNA device, a 2x2 model that can be reshaped, three equal
    logits. *)
Definition tie : config :=
  {| devices := ["CPU"; "GNA.0"; "GPU.0"]%string;
     model_file := "model.xml"%string;
     native_shape := [1; 3; 2; 2];
     accepts_reshape := true;
     compiles := true;
     logits := [F32.half; F32.half; F32.half] |}.

(** The same model with a fixed input shape. *)
Definition fixed : config :=
  {| devices := ["CPU"]%string;
     model_file := "model.xml"%string;
     native_shape := [1; 3; 2; 2];
     accepts_reshape := false;
     compiles := true;
     logits := [F32.zero; F32.one] |}.

(** A model the device cannot compile. *)
Definition uncompilable : config :=
  {| devices := ["CPU"]%string;
     model_file := "model.xml"%string;
     native_shape := [1; 3; 2; 2];
     accepts_reshape := true;
     compiles := false;
     logits := [F32.zero; F32.one] |}.

(** A model whose output has no classes. *)
Definition no_classes : config :=
  {| devices := ["CPU"]%string;
     model_file := "model.xml"%string;
     native_shape := [1; 3; 1; 1];
     accepts_reshape := true;
     compiles := true;
     logits := [] |}.

(** A frame of [n] pixels of one colour, with the given alpha bytes. *)
Fixpoint solid (r g b : Byte.byte) (alphas : list Byte.byte) : list Byte.byte :=
  match alphas with
  | [] => []
  | a :: rest => r :: g :: b :: a :: solid r g b rest
  end.

End TestDouble.

(** ** Notions used to state the properties *)

(** [sub] occurs somewhere in [s]. *)
Definition contains (sub s : string) : Prop :=
  exists pre post : string, s = (pre ++ sub ++ post)%string.

(** The test of [GetDeviceCount]'s loop, as a boolean. *)
Definition keeps (device : string) : bool :=
  match find device "GNA" with
  | None => true
  | Some _ => false
  end.

(** [buf'] is [buf] after the writes of [fill_input] for the pixel and
    channel pairs in [W]: those cells hold the normalised bytes of the
    texture, in planar order, and every other cell is as before. *)
Definition written (tex : list Byte.byte) (n : Z) (W : Z -> Z -> Prop)
    (buf buf' : list F32.t) : Prop :=
  length buf' = length buf /\
  (forall p c b, W p c -> tex !! Z.to_nat (p * 3 + c) = Some b ->
                 buf' !! Z.to_nat (c * n + p) = Some (normalize b)) /\
  (forall j : nat, (forall p c, W p c -> j <> Z.to_nat (c * n + p)) ->
                   buf' !! j = buf !! j).

(** Two frames agree on the red, green and blue bytes of their first [n]
    pixels. *)
Definition same_rgb (n : nat) (f1 f2 : list Byte.byte) : Prop :=
  forall p c : nat, (p < n)%nat -> (c < 3)%nat ->
                    f1 !! (4 * p + c)%nat = f2 !! (4 * p + c)%nat.

(** [v] is the offset of the first greatest of the [n] floats at [out]. *)
Definition first_max (out : list F32.t) (n v : Z) : Prop :=
  0 <= v < n /\
  exists m,
    out !! Z.to_nat v = Some m /\
    (forall j x, 0 <= j < n -> out !! Z.to_nat j = Some x -> F32.leb x m = true) /\
    (forall j x, 0 <= j < v -> out !! Z.to_nat j = Some x -> F32.ltb x m = true).

(** The invariant of the loop of [std::max_element]: [largest] is the
    first greatest among the elements before [first]. *)
Definition prefix_max (out : list F32.t) (first largest : nat) : Prop :=
  (largest < first)%nat /\
  exists m,
    out !! largest = Some m /\
    (forall j x, (j < first)%nat -> out !! j = Some x -> F32.leb x m = true) /\
    (forall j x, (j < largest)%nat -> out !! j = Some x -> F32.ltb x m = true).

(** None of the [n] floats at [out] is a NaN. *)
Definition no_nan (out : list F32.t) (n : Z) : Prop :=
  forall j x, 0 <= j < n -> out !! Z.to_nat j = Some x -> F32.is_nan x = false.

(** The integer a colour byte stands for. *)
Definition byte_value (b : Byte.byte) : Z := Z.of_N (Byte.to_N b).

(** The same outcome with the final state changed by [f]. *)
Definition outcome_map {S A : Type} (f : S -> S) (o : outcome S A) : outcome S A :=
  match o with
  | Ret a s => Ret a (f s)
  | Exn s => Exn (f s)
  | Undef => Undef
  end.

Section Notions.

Context {rt : Runtime}.

(** The body of the loop of [GetDeviceCount]. *)
Definition keep_device (device : string) : M rt unit :=
  match find device "GNA" with
  | None => modify (fun s => set_available_devices (available_devices s ++ [device]) s)
  | Some _ => ret tt
  end.

(** The arguments [LoadModel] compiles with. *)
Definition compile_properties (device : string) : list property :=
  [device_priorities device; performance_mode_LATENCY; inference_precision f32].

(** The model [LoadModel] compiles after parsing [m0]: the reshaped one, or
    [m0] itself when the reshape throws; and the status that goes with it. *)
Definition model_to_compile (m0 : Model rt) (inputDims : Z * Z) : Model rt * Z :=
  match reshape rt m0 [1; 3; snd inputDims; fst inputDims] with
  | Ok m => (m, 0)
  | Throws => (m0, 2)
  end.

(** Everything [LoadModel] does after the reshape goes through: the device
    index is valid, the model compiles to a model with output shape
    [_; n; ...] and gives a request [r] whose input tensor [t] is a float
    tensor of shape [_; _; h; w], and [w * h] fits an [int]. *)
Definition load_completes (s : State rt) (c : Core rt) (m : Model rt)
    (index : Z) (r : InferRequest rt) (t : Tensor) (n w h : Z) : Prop :=
  exists device cm out,
    0 <= index /\
    available_devices s !! Z.to_nat index = Some device /\
    compile_model rt c m "MULTI" (compile_properties device) = Ok cm /\
    output_shape rt cm = Ok out /\
    out !! 1%nat = Some n /\
    create_infer_request rt cm = Ok r /\
    get_input_tensor rt r 0 = Ok t /\
    t_shape t !! 3%nat = Some w /\
    t_shape t !! 2%nat = Some h /\
    Int.in_range (Int.of_size_t w * Int.of_size_t h) = true /\
    t_type t = f32.

(** The globals after such a load. *)
Definition loaded_state (s : State rt) (c : Core rt) (m : Model rt)
    (r : InferRequest rt) (t : Tensor) (n w h : Z) : State rt :=
  mkState c (Some m) (compiled_model s) (available_devices s)
    (Some r) (Some t) input_storage
    (Int.of_size_t n) (Int.of_size_t w) (Int.of_size_t h)
    (Int.of_size_t w * Int.of_size_t h).

(** The bodies of the two loops of [fill_input]. *)
Definition fill_channel (texture : Mat) (p ch : Z) : M rt unit :=
  n <- gets nPixels ;;
  src <- int_mul p num_channels ;;
  src <- int_add src ch ;;
  b <- at_index (data texture) src ;;
  dst <- int_mul ch n ;;
  dst <- int_add dst p ;;
  store_input dst (normalize b).

Definition fill_pixel (texture : Mat) (p : Z) : M rt unit :=
  for_loop (Z.to_nat num_channels) 0 (fill_channel texture p).

(** The state with the storage of the input tensor holding [buf]. *)
Definition set_floats (buf : list F32.t) (s : State rt) : State rt :=
  match input_tensor s with
  | Some t => set_input_tensor (Some (mkTensor (t_shape t) (t_type t) buf)) s
  | None => s
  end.

(** [input_data] points into the storage of a live input tensor. *)
Definition writable (s : State rt) : Prop :=
  input_data s = input_storage /\ exists t, input_tensor s = Some t.

(** What the globals are bound to, without the contents of the objects
    behind the handles: the request's internals and the floats in the input
    tensor's storage are left out. *)
Definition bindings (s : State rt) :=
  (core s, model s, compiled_model s, available_devices s,
   match infer_request s with Some _ => true | None => false end,
   match input_tensor s with Some t => Some (t_shape t, t_type t) | None => None end,
   input_data s, (num_classes s, input_w s, input_h s, nPixels s)).

(** [s'] differs from [s] at most in the contents of those objects. *)
Definition stays (s s' : State rt) : Prop :=
  bindings s' = bindings s /\
  length (input_floats s') = length (input_floats s).

(** The globals are as a completed load leaves them, and the storage of the
    input tensor holds the three planes of [nPixels] floats. *)
Definition ready (s : State rt) : Prop :=
  nPixels s = input_w s * input_h s /\
  writable s /\
  3 * nPixels s <= Z.of_nat (length (input_floats s)) /\
  3 * nPixels s <= Int.max_int.

(** The output tensor left by any forward pass holds at least [n] floats. *)
Definition outputs_hold (n : Z) : Prop :=
  forall r buf r' t,
    infer rt r buf = Ok r' -> get_output_tensor rt r' = Ok t ->
    n <= Z.of_nat (length (t_data t)).

(** The part of the [try] block after the loops: the forward pass and the
    choice of the class. *)
Definition forward_pass : M rt Z :=
  r <- gets infer_request ;;
  match r with
  | None => throw
  | Some r =>
      buf <- gets input_floats ;;
      r <- call (infer rt r buf) ;;
      modify (set_infer_request (Some r)) ;;;
      output_tensor <- call (get_output_tensor rt r) ;;
      out_data <- call (data_float output_tensor) ;;
      n <- gets num_classes ;;
      match max_element out_data n with
      | Some i => ret (Int.of_size_t i)
      | None => undefined
      end
  end.

(** A computation that neither throws nor changes anything but the floats
    in the storage of the input tensor, whose number it keeps. *)
Definition touches_floats {A} (m : M rt A) : Prop :=
  forall s,
    match m s with
    | Ret _ s' =>
        exists buf, s' = set_floats buf s /\ length buf = length (input_floats s)
    | Exn _ => False
    | Undef => True
    end.

(** A computation that neither reads nor writes the global [core]. *)
Definition core_blind {A} (m : M rt A) : Prop :=
  forall c s, m (set_core c s) = outcome_map (set_core c) (m s).

(** What the globals say about the loaded model: the part of the bindings
    that [PerformInference] reads. *)
Definition loaded_view (s : State rt) :=
  (match infer_request s with Some _ => true | None => false end,
   match input_tensor s with Some t => Some (t_shape t, t_type t) | None => None end,
   input_data s, (num_classes s, input_w s, input_h s, nPixels s)).

(** [s'] has the model of [s] loaded, with storage of the same size. *)
Definition keeps_loaded (s s' : State rt) : Prop :=
  loaded_view s' = loaded_view s /\
  length (input_floats s') = length (input_floats s).


End Notions.

(** ** Scenarios on the test double *)

Module Scenario.

Import TestDouble.

(** The globals after module initialisation and one device enumeration. *)
Definition enumerated (cfg : config) : State (runtime cfg) :=
  set_available_devices (List.filter keeps (devices cfg))
    (initial_state (runtime cfg) []).

(** The core once [LoadModel] has set the cache directory. *)
Definition configured (cfg : config) : Core (runtime cfg) :=
  [("GPU"%string, cache_dir "cache")].

(** The input tensor the double hands out for a shape. *)
Definition blank (shp : Shape) : Tensor :=
  mkTensor shp f32 (repeat F32.zero (shape_size shp)).

(** The globals after the double has loaded a model of input shape [shp]
    with [n] classes. *)
Definition loaded (cfg : config) (shp : Shape) (n w h : Z) : State (runtime cfg) :=
  loaded_state (enumerated cfg) (configured cfg) shp shp (blank shp) n w h.

(** The state an outcome ends in ([d] when it has none). *)
Definition final_state {rt : Runtime} {A : Type}
    (o : outcome (State rt) A) (d : State rt) : State rt :=
  match o with
  | Ret _ s => s
  | Exn s => s
  | Undef => d
  end.

(** A grey 2x2 frame and the same frame with other alpha bytes. *)
Definition grey : list Byte.byte :=
  solid Byte.x80 Byte.x80 Byte.x80 [Byte.xff; Byte.xff; Byte.xff; Byte.xff].

Definition grey_translucent : list Byte.byte :=
  solid Byte.x80 Byte.x80 Byte.x80 [Byte.x00; Byte.x10; Byte.x7f; Byte.xfe].

(** A one-pixel frame. *)
Definition pixel : list Byte.byte := [Byte.x0a; Byte.x14; Byte.x1e; Byte.xff].

End Scenario.

(** ** Notions for the behaviour at the edges *)

Section EdgeNotions.

Context {rt : Runtime}.

(** The state with the four globals [PerformInference] never reads set to
    other values. *)
Definition set_unread (c : Core rt) (m : option (Model rt))
    (cm : option (CompiledModel rt)) (devs : list string) (s : State rt)
  : State rt :=
  mkState c m cm devs (infer_request s) (input_tensor s) (input_data s)
    (num_classes s) (input_w s) (input_h s) (nPixels s).

(** A computation that neither reads nor writes those four globals. *)
Definition unread_blind {A} (m : M rt A) : Prop :=
  forall c mo cm devs s,
    m (set_unread c mo cm devs s)
    = outcome_map (set_unread c mo cm devs) (m s).

(** A computation that leaves the projection [f] of the globals as it was,
    whether it returns or throws. *)
Definition preserves {A B} (f : State rt -> B) (m : M rt A) : Prop :=
  forall s,
    match m s with
    | Ret _ s' => f s' = f s
    | Exn s' => f s' = f s
    | Undef => True
    end.

(** [LoadModel] gets as far as the input tensor [t] of a new request [r]:
    all of [load_completes] but the element type of the tensor. *)
Definition load_reaches_tensor (s : State rt) (c : Core rt) (m : Model rt)
    (index : Z) (r : InferRequest rt) (t : Tensor) (n w h : Z) : Prop :=
  exists device cm out,
    0 <= index /\
    available_devices s !! Z.to_nat index = Some device /\
    compile_model rt c m "MULTI" (compile_properties device) = Ok cm /\
    output_shape rt cm = Ok out /\
    out !! 1%nat = Some n /\
    create_infer_request rt cm = Ok r /\
    get_input_tensor rt r 0 = Ok t /\
    t_shape t !! 3%nat = Some w /\
    t_shape t !! 2%nat = Some h /\
    Int.in_range (Int.of_size_t w * Int.of_size_t h) = true.

(** [LoadModel] gets as far as a new request [r] for a compiled model of
    [n] classes, with input tensor [t]. *)
Definition load_reaches_request (s : State rt) (c : Core rt) (m : Model rt)
    (index : Z) (r : InferRequest rt) (t : Tensor) (n : Z) : Prop :=
  exists device cm out,
    0 <= index /\
    available_devices s !! Z.to_nat index = Some device /\
    compile_model rt c m "MULTI" (compile_properties device) = Ok cm /\
    output_shape rt cm = Ok out /\
    out !! 1%nat = Some n /\
    create_infer_request rt cm = Ok r /\
    get_input_tensor rt r 0 = Ok t.

(** The ways an exception leaves [LoadModel]: a call outside its two
    [try] blocks throws, everything before it on the path having gone
    through. [m] is the model the function compiles. *)
Inductive propagates (s : State rt) (path : string) (index : Z)
    (dims : Z * Z) : Prop :=
| from_set_property :
    set_property rt (core s) "GPU" (cache_dir "cache") = Throws ->
    propagates s path index dims
| from_compile_model c m0 device :
    set_property rt (core s) "GPU" (cache_dir "cache") = Ok c ->
    read_model rt c path = Ok m0 ->
    0 <= index ->
    available_devices s !! Z.to_nat index = Some device ->
    compile_model rt c (fst (model_to_compile m0 dims)) "MULTI"
      (compile_properties device) = Throws ->
    propagates s path index dims
| from_output_shape c m0 device cm :
    set_property rt (core s) "GPU" (cache_dir "cache") = Ok c ->
    read_model rt c path = Ok m0 ->
    0 <= index ->
    available_devices s !! Z.to_nat index = Some device ->
    compile_model rt c (fst (model_to_compile m0 dims)) "MULTI"
      (compile_properties device) = Ok cm ->
    output_shape rt cm = Throws ->
    propagates s path index dims
| from_create_infer_request c m0 device cm out n :
    set_property rt (core s) "GPU" (cache_dir "cache") = Ok c ->
    read_model rt c path = Ok m0 ->
    0 <= index ->
    available_devices s !! Z.to_nat index = Some device ->
    compile_model rt c (fst (model_to_compile m0 dims)) "MULTI"
      (compile_properties device) = Ok cm ->
    output_shape rt cm = Ok out ->
    out !! 1%nat = Some n ->
    create_infer_request rt cm = Throws ->
    propagates s path index dims
| from_get_input_tensor c m0 device cm out n r :
    set_property rt (core s) "GPU" (cache_dir "cache") = Ok c ->
    read_model rt c path = Ok m0 ->
    0 <= index ->
    available_devices s !! Z.to_nat index = Some device ->
    compile_model rt c (fst (model_to_compile m0 dims)) "MULTI"
      (compile_properties device) = Ok cm ->
    output_shape rt cm = Ok out ->
    out !! 1%nat = Some n ->
    create_infer_request rt cm = Ok r ->
    get_input_tensor rt r 0 = Throws ->
    propagates s path index dims
| from_data_float c m0 r t n w h :
    set_property rt (core s) "GPU" (cache_dir "cache") = Ok c ->
    read_model rt c path = Ok m0 ->
    load_reaches_tensor s c (fst (model_to_compile m0 dims)) index r t n w h ->
    t_type t <> f32 ->
    propagates s path index dims.

End EdgeNotions.

(** ** Test doubles and inputs for the edges *)

Module EdgeCases.

Import TestDouble.

(** The double for [tie], with an enumeration that may throw and the input
    tensor chosen by [tensor_of]. *)
Definition variant (enumerates : bool) (tensor_of : Shape -> Tensor) : Runtime :=
  {| Core := list (string * property);
     Model := Shape;
     CompiledModel := Shape;
     InferRequest := Shape;
     get_available_devices := fun _ =>
       if enumerates then Ok (devices tie) else Throws;
     set_property := fun c dev p => Ok ((dev, p) :: c);
     read_model := fun _ path =>
       if String.eqb path (model_file tie) then Ok (native_shape tie) else Throws;
     compile_model := fun _ m _ _ => Ok m;
     reshape := fun m shp => Ok shp;
     output_shape := fun _ => Ok [1; Z.of_nat (length (logits tie))];
     create_infer_request := fun cm => Ok cm;
     get_input_tensor := fun r _ => Ok (tensor_of r);
     infer := fun r _ => Ok r;
     get_output_tensor := fun _ =>
       Ok (mkTensor [1; Z.of_nat (length (logits tie))] f32 (logits tie)) |}.

(** No device can be enumerated. *)
Definition unplugged : Runtime := variant false Scenario.blank.

(** The model takes 32-bit integers as input. *)
Definition integer_input : Runtime :=
  variant true (fun shp => mkTensor shp i32 (repeat F32.zero (shape_size shp))).

(** The model takes a flat vector as input. *)
Definition flat_input : Runtime :=
  variant true (fun shp => mkTensor [1; 12] f32 (repeat F32.zero 12)).

(** The globals at module initialisation, with the devices already
    enumerated. *)
Definition enumerated (rt : Runtime) (c : Core rt) : State rt :=
  set_available_devices ["CPU"; "GPU.0"]%string (initial_state rt c).

(** The model takes images of 65536 by 65536 pixels. *)
Definition huge_input : Runtime :=
  variant true (fun shp => mkTensor [1; 3; 65536; 65536] f32 []).

(** A model whose first logit is a NaN. *)
Definition nan_first : config :=
  {| devices := ["CPU"]%string;
     model_file := "model.xml"%string;
     native_shape := [1; 3; 2; 2];
     accepts_reshape := true;
     compiles := true;
     logits := [S754_nan; F32.one; F32.half] |}.

(** A red 2x2 frame. *)
Definition red : list Byte.byte :=
  solid Byte.xff Byte.x00 Byte.x00 [Byte.xff; Byte.xff; Byte.xff; Byte.xff].

(** A one-channel model with a fixed 2x2 input and two classes. *)
Definition one_channel : config :=
  {| devices := ["CPU"]%string;
     model_file := "model.xml"%string;
     native_shape := [1; 1; 2; 2];
     accepts_reshape := false;
     compiles := true;
     logits := [F32.zero; F32.one] |}.

End EdgeCases.

(** ** Machine integers: facts *)

Module IntFacts.

Import Int.

Lemma in_range_spec z : in_range z = true <-> min_int <= z <= max_int.
Proof. unfold in_range. rewrite andb_true_iff, !Z.leb_le. tauto. Qed.

Lemma of_size_t_small n : 0 <= n <= max_int -> of_size_t n = n.
Proof.
  unfold of_size_t, max_int. intros Hn.
  rewrite Z.mod_small by lia. lia.
Qed.


End IntFacts.

(** ** Reasoning about the monad *)

Section MonadFacts.

Context {rt : Runtime}.

Lemma bind_Ret {A B} (m : M rt A) (k : A -> M rt B) s a s' :
  m s = Ret a s' -> bind m k s = k a s'.
Proof. unfold bind. now intros ->. Qed.

Lemma at_index_Ret {A} (v : list A) i a (s : State rt) :
  0 <= i -> v !! Z.to_nat i = Some a -> at_index v i s = Ret a s.
Proof.
  intros Hi Hv. unfold at_index.
  destruct (Z.ltb_spec i 0); [lia |]. now rewrite Hv.
Qed.

Lemma int_mul_Ret a b (s : State rt) :
  Int.min_int <= a * b <= Int.max_int -> int_mul a b s = Ret (a * b) s.
Proof.
  intros H. unfold int_mul.
  now rewrite (proj2 (IntFacts.in_range_spec _) H).
Qed.

Lemma int_add_Ret a b (s : State rt) :
  Int.min_int <= a + b <= Int.max_int -> int_add a b s = Ret (a + b) s.
Proof.
  intros H. unfold int_add.
  now rewrite (proj2 (IntFacts.in_range_spec _) H).
Qed.

End MonadFacts.

(** ** Device names *)

Lemma substring_prefix (p post : string) :
  substring 0 (String.length p) (p ++ post) = p.
Proof.
  induction p as [| a p IH]; simpl.
  - now destruct post.
  - now rewrite IH.
Qed.

Lemma substring_middle (pre p post : string) :
  substring (String.length pre) (String.length p) (pre ++ p ++ post) = p.
Proof.
  induction pre as [| a pre IH]; simpl.
  - apply substring_prefix.
  - exact IH.
Qed.

Lemma substring_contains (s : string) :
  forall (m : nat) (p : string),
    substring m (String.length p) s = p -> p <> ""%string -> contains p s.
Proof.
  induction s as [| a s IH]; intros m p Hsub Hp.
  - destruct m, p; simpl in Hsub; congruence.
  - destruct m as [| m].
    + destruct p as [| b p]; [congruence |].
      simpl in Hsub. injection Hsub as -> Hsub.
      exists ""%string. simpl.
      assert (Hc : exists post, s = (p ++ post)%string).
      { clear -Hsub. revert s Hsub.
        induction p as [| c p IHp]; intros s Hsub.
        - exists s. reflexivity.
        - destruct s as [| d s]; simpl in Hsub; [discriminate |].
          injection Hsub as -> Hsub.
          destruct (IHp _ Hsub) as [post ->]. now exists post. }
      destruct Hc as [post ->]. now exists post.
    + simpl in Hsub. destruct (IH _ _ Hsub Hp) as (pre & post & ->).
      exists (String a pre), post. reflexivity.
Qed.

Lemma keeps_spec (device : string) :
  keeps device = true <-> ~ contains "GNA" device.
Proof.
  unfold keeps, find. split.
  - destruct (index 0 "GNA" device) eqn:E; [discriminate |].
    intros _ (pre & post & ->).
    apply (index_correct3 0 (String.length pre)) in E; [| discriminate | lia].
    apply E. apply (substring_middle pre "GNA" post).
  - intros Hn. destruct (index 0 "GNA" device) eqn:E; [| reflexivity].
    exfalso. apply Hn. apply index_correct1 in E.
    now apply (substring_contains _ _ _ E).
Qed.

Section Devices.

Context {rt : Runtime}.

Lemma for_each_keep (devs : list string) :
  forall s : State rt,
    for_each devs keep_device s
    = Ret tt (set_available_devices
                (available_devices s ++ List.filter keeps devs) s).
Proof.
  induction devs as [| d devs IH]; intros s; simpl.
  - rewrite app_nil_r. now destruct s.
  - unfold bind, keep_device, keeps.
    destruct (find d "GNA"); simpl.
    + apply IH.
    + rewrite IH. simpl. now rewrite <- app_assoc.
Qed.

Lemma GetDeviceCount_Ret (s : State rt) devs :
  get_available_devices rt (core s) = Ok devs ->
  GetDeviceCount s
  = Ret (Int.of_size_t (Z.of_nat (length (List.filter keeps devs))))
        (set_available_devices (List.filter keeps devs) s).
Proof.
  intros Hd. unfold GetDeviceCount, bind, modify, gets. simpl.
  rewrite Hd. simpl.
  change (fun device : string =>
            match find device "GNA" with
            | Some _ => ret tt
            | None => modify (fun s0 : State rt =>
                       set_available_devices (available_devices s0 ++ [device]) s0)
            end) with (@keep_device rt).
  rewrite for_each_keep. simpl. reflexivity.
Qed.

End Devices.

(** C6. After [GetDeviceCount] returns [n], the device list holds the
    runtime's devices whose identifier does not contain "GNA", in the order
    the runtime reported them, [n] is its length, and for every index [i] in
    [0, n) [GetDeviceName i] returns the [i]-th of them: a string without
    "GNA" in it, and non-empty as the runtime's identifiers are. *)
Theorem GetDeviceCount_then_GetDeviceName {rt : Runtime} (s : State rt)
    (devs : list string) :
  get_available_devices rt (core s) = Ok devs ->
  Forall (fun d => d <> ""%string) devs ->
  Z.of_nat (length devs) <= Int.max_int ->
  exists n s',
    GetDeviceCount s = Ret n s' /\
    available_devices s' = List.filter keeps devs /\
    (forall d, In d (available_devices s') <-> In d devs /\ ~ contains "GNA" d) /\
    n = Z.of_nat (length (available_devices s')) /\
    forall i, 0 <= i < n ->
      exists d, GetDeviceName i s' = Ret d s' /\
                available_devices s' !! Z.to_nat i = Some d /\
                d <> ""%string /\ ~ contains "GNA" d.
Proof.
  intros Hd Hne Hlen.
  pose proof (filter_length_le keeps devs) as Hle.
  eexists _, _. split; [apply (GetDeviceCount_Ret _ _ Hd) |]. simpl.
  split; [reflexivity |].
  split.
  { intros d. rewrite filter_In, keeps_spec. reflexivity. }
  split.
  { apply IntFacts.of_size_t_small. lia. }
  intros i Hi. rewrite IntFacts.of_size_t_small in Hi by lia.
  destruct (List.filter keeps devs !! Z.to_nat i) as [d |] eqn:E.
  - exists d. split.
    + unfold GetDeviceName, bind, gets. simpl. now apply at_index_Ret.
    + split; [reflexivity |].
      assert (Hin : In d (List.filter keeps devs)).
      { apply list_elem_of_In. eapply list_elem_of_lookup_2. exact E. }
      apply filter_In in Hin. destruct Hin as [Hin Hk].
      split.
      * rewrite List.Forall_forall in Hne. now apply Hne.
      * now apply keeps_spec.
  - apply lookup_ge_None in E. lia.
Qed.

Lemma GetDeviceCount_then_GetDeviceName_witness :
  exists n s',
    GetDeviceCount (initial_state (TestDouble.runtime TestDouble.tie) []) = Ret n s' /\
    available_devices s' = List.filter keeps ["CPU"; "GNA.0"; "GPU.0"]%string /\
    (forall d, In d (available_devices s')
               <-> In d ["CPU"; "GNA.0"; "GPU.0"]%string /\ ~ contains "GNA" d) /\
    n = Z.of_nat (length (available_devices s')) /\
    forall i, 0 <= i < n ->
      exists d, GetDeviceName i s' = Ret d s' /\
                available_devices s' !! Z.to_nat i = Some d /\
                d <> ""%string /\ ~ contains "GNA" d.
Proof.
  apply (GetDeviceCount_then_GetDeviceName
           (initial_state (TestDouble.runtime TestDouble.tie) [])
           ["CPU"; "GNA.0"; "GPU.0"]%string).
  - reflexivity.
  - repeat constructor; discriminate.
  - unfold Int.max_int. simpl. lia.
Defined.

(** ** Loading a model *)

Section Loading.

Context {rt : Runtime}.

Lemma LoadModel_set_property_throws (s : State rt) path index dims :
  set_property rt (core s) "GPU" (cache_dir "cache") = Throws ->
  LoadModel path index dims s = Exn s.
Proof.
  intros Hp. unfold LoadModel, bind, gets, call. simpl. now rewrite Hp.
Qed.

Lemma LoadModel_parse_fails (s : State rt) path index dims c :
  set_property rt (core s) "GPU" (cache_dir "cache") = Ok c ->
  read_model rt c path = Throws ->
  LoadModel path index dims s = Ret 1 (set_core c s).
Proof.
  intros Hp Hr.
  unfold LoadModel, bind, gets, call, try_catch, modify, ret, throw. simpl.
  rewrite Hp. simpl. rewrite Hr. reflexivity.
Qed.

Lemma LoadModel_completes (s : State rt) path index dims c m0 r t n w h :
  set_property rt (core s) "GPU" (cache_dir "cache") = Ok c ->
  read_model rt c path = Ok m0 ->
  load_completes s c (fst (model_to_compile m0 dims)) index r t n w h ->
  LoadModel path index dims s
  = Ret (snd (model_to_compile m0 dims))
        (loaded_state s c (fst (model_to_compile m0 dims)) r t n w h).
Proof.
  intros Hp Hr (device & cm & out & Hi & Hdev & Hc & Ho & Hn & Hq & Ht & Hw & Hh & Hrange & Hty).
  unfold LoadModel, model_to_compile in *.
  unfold bind at 1. unfold gets at 1.
  unfold bind at 1. rewrite Hp. simpl.
  unfold bind, gets, call, try_catch, modify, ret, throw. simpl.
  rewrite Hr. simpl.
  destruct (reshape rt m0 [1; 3; snd dims; fst dims]) as [m |]; simpl in *.
  all: unfold at_index; destruct (Z.ltb_spec index 0) as [? | _]; [lia |];
    rewrite Hdev; unfold ret; simpl;
    unfold compile_properties in Hc; rewrite Hc; simpl; rewrite Ho; simpl;
    change (Z.to_nat 1) with 1%nat; change (Z.to_nat 2) with 2%nat;
    change (Z.to_nat 3) with 3%nat;
    rewrite Hn; simpl; rewrite Hq; simpl; rewrite Ht; simpl;
    rewrite Hw; simpl;
    rewrite Hh; simpl;
    unfold int_mul; simpl; rewrite Hrange; unfold ret; simpl;
    unfold data_float; rewrite Hty; simpl; reflexivity.
Qed.

Lemma LoadModel_inv (s : State rt) path index dims v s' :
  LoadModel path index dims s = Ret v s' ->
  exists c,
    set_property rt (core s) "GPU" (cache_dir "cache") = Ok c /\
    ((read_model rt c path = Throws /\ v = 1 /\ s' = set_core c s) \/
     exists m0 r t n w h,
       read_model rt c path = Ok m0 /\
       v = snd (model_to_compile m0 dims) /\
       load_completes s c (fst (model_to_compile m0 dims)) index r t n w h /\
       s' = loaded_state s c (fst (model_to_compile m0 dims)) r t n w h).
Proof.
  unfold LoadModel.
  unfold bind at 1. unfold gets at 1.
  unfold bind at 1.
  destruct (set_property rt (core s) "GPU" (cache_dir "cache")) as [c |] eqn:Hp;
    simpl; [| discriminate].
  intros H. exists c. split; [reflexivity |].
  revert H.
  unfold bind, gets, call, try_catch, modify, ret, throw. simpl.
  destruct (read_model rt c path) as [m0 |] eqn:Hr; simpl.
  2:{ intros [= <- <-]. left. auto. }
  intros H. right. exists m0.
  unfold load_completes, model_to_compile, compile_properties.
  destruct (reshape rt m0 [1; 3; snd dims; fst dims]) as [m |]; simpl in *.
  all: revert H; unfold at_index;
    destruct (Z.ltb_spec index 0) as [? | Hi]; [discriminate |];
    destruct (available_devices s !! Z.to_nat index) as [device |] eqn:Hdev;
      [| discriminate];
    unfold ret; simpl;
    match goal with |- context [compile_model _ ?y ?x ?d ?ps] =>
      destruct (compile_model rt y x d ps) as [cm |] eqn:Hc
    end; simpl; [| discriminate];
    destruct (output_shape rt cm) as [out |] eqn:Ho; simpl; [| discriminate];
    change (Z.to_nat 1) with 1%nat; change (Z.to_nat 2) with 2%nat;
    change (Z.to_nat 3) with 3%nat;
    destruct (out !! 1%nat) as [n |] eqn:Hn; simpl; [| discriminate];
    destruct (create_infer_request rt cm) as [r |] eqn:Hq; simpl; [| discriminate];
    destruct (get_input_tensor rt r 0) as [t |] eqn:Ht; simpl; [| discriminate];
    destruct (t_shape t !! 3%nat) as [w |] eqn:Hw; simpl; [| discriminate];
    destruct (t_shape t !! 2%nat) as [h |] eqn:Hh; simpl; [| discriminate];
    unfold int_mul; simpl;
    destruct (Int.in_range (Int.of_size_t w * Int.of_size_t h)) eqn:Hrange;
      unfold ret, undefined; simpl; [| discriminate];
    unfold data_float;
    destruct (t_type t) eqn:Hty; simpl; try discriminate;
    intros [= <- <-];
    exists r, t, n, w, h;
    (split; [reflexivity |]); (split; [reflexivity |]);
    (split; [| reflexivity]);
    exists device, cm, out; repeat split; solve [assumption | reflexivity | lia].
Qed.

End Loading.

(** C1. Once the cache directory is set, [LoadModel] returns 1 when the
    runtime fails to parse the model file. When the file parses and the
    rest of the load goes through, it returns 0 if the reshape to
    [1; 3; height; width] succeeded, with the reshaped model loaded, and 2
    if the reshape threw, with the model loaded as it was parsed. *)
Theorem LoadModel_status {rt : Runtime} (s : State rt) (path : string)
    (index : Z) (dims : Z * Z) (c : Core rt) :
  set_property rt (core s) "GPU" (cache_dir "cache") = Ok c ->
  match read_model rt c path with
  | Throws => LoadModel path index dims s = Ret 1 (set_core c s)
  | Ok m0 =>
      forall r t n w h,
        match reshape rt m0 [1; 3; snd dims; fst dims] with
        | Ok m =>
            load_completes s c m index r t n w h ->
            LoadModel path index dims s = Ret 0 (loaded_state s c m r t n w h)
        | Throws =>
            load_completes s c m0 index r t n w h ->
            LoadModel path index dims s = Ret 2 (loaded_state s c m0 r t n w h)
        end
  end.
Proof.
  intros Hp.
  destruct (read_model rt c path) as [m0 |] eqn:Hr.
  - intros r t n w h.
    pose proof (LoadModel_completes s path index dims c m0 r t n w h Hp Hr) as H.
    unfold model_to_compile in H.
    destruct (reshape rt m0 [1; 3; snd dims; fst dims]); exact H.
  - now apply LoadModel_parse_fails.
Qed.

Lemma LoadModel_status_witness :
  LoadModel "missing.xml" 0 (2, 2) (Scenario.enumerated TestDouble.tie)
  = Ret 1 (set_core (Scenario.configured TestDouble.tie) (Scenario.enumerated TestDouble.tie))
  /\ LoadModel "model.xml" 0 (1, 1) (Scenario.enumerated TestDouble.tie)
     = Ret 0 (loaded_state (Scenario.enumerated TestDouble.tie)
                (Scenario.configured TestDouble.tie) [1; 3; 1; 1] [1; 3; 1; 1]
                (Scenario.blank [1; 3; 1; 1]) 3 1 1)
  /\ LoadModel "model.xml" 0 (4, 4) (Scenario.enumerated TestDouble.fixed)
     = Ret 2 (loaded_state (Scenario.enumerated TestDouble.fixed)
                (Scenario.configured TestDouble.fixed) [1; 3; 2; 2] [1; 3; 2; 2]
                (Scenario.blank [1; 3; 2; 2]) 2 2 2).
Proof.
  split; [| split].
  - exact (LoadModel_status (Scenario.enumerated TestDouble.tie)
             "missing.xml" 0 (2, 2) (Scenario.configured TestDouble.tie) eq_refl).
  - apply (LoadModel_status (Scenario.enumerated TestDouble.tie)
             "model.xml" 0 (1, 1) (Scenario.configured TestDouble.tie) eq_refl
             [1; 3; 1; 1] (Scenario.blank [1; 3; 1; 1]) 3 1 1).
    exists "CPU"%string, [1; 3; 1; 1], [1; 3].
    repeat split; solve [reflexivity | lia].
  - apply (LoadModel_status (Scenario.enumerated TestDouble.fixed)
             "model.xml" 0 (4, 4) (Scenario.configured TestDouble.fixed) eq_refl
             [1; 3; 2; 2] (Scenario.blank [1; 3; 2; 2]) 2 2 2).
    exists "CPU"%string, [1; 3; 2; 2], [1; 2].
    repeat split; solve [reflexivity | lia].
Defined.

(** C10. After a [LoadModel] that returns 0 or 2, the cached width and
    height are dimensions 3 and 2 of the shape of the input tensor of the
    request created from the compiled model, converted to [int], and the
    cached pixel count is their product; the caller's dimensions enter only
    through the reshape. When the reshape was refused (status 2) the model
    compiled is the parsed one, and any other dimensions the model refuses
    give the same globals. *)
Theorem LoadModel_caches_tensor_dims {rt : Runtime} (s : State rt)
    (path : string) (index : Z) (dims : Z * Z) (v : Z) (s' : State rt) :
  LoadModel path index dims s = Ret v s' ->
  v = 0 \/ v = 2 ->
  exists m device cm r t w h,
    model s' = Some m /\
    available_devices s !! Z.to_nat index = Some device /\
    compile_model rt (core s') m "MULTI" (compile_properties device) = Ok cm /\
    create_infer_request rt cm = Ok r /\
    infer_request s' = Some r /\
    get_input_tensor rt r 0 = Ok t /\
    input_tensor s' = Some t /\
    t_shape t !! 3%nat = Some w /\
    t_shape t !! 2%nat = Some h /\
    input_w s' = Int.of_size_t w /\
    input_h s' = Int.of_size_t h /\
    nPixels s' = input_w s' * input_h s' /\
    Int.in_range (nPixels s') = true /\
    (v = 2 ->
     read_model rt (core s') path = Ok m /\
     reshape rt m [1; 3; snd dims; fst dims] = Throws /\
     forall dims' : Z * Z,
       reshape rt m [1; 3; snd dims'; fst dims'] = Throws ->
       LoadModel path index dims' s = Ret 2 s').
Proof.
  intros HL Hv.
  destruct (LoadModel_inv _ _ _ _ _ _ HL) as (c & Hp & [(_ & -> & _) | H]).
  { destruct Hv; discriminate. }
  destruct H as (m0 & r & t & n & w & h & Hr & Hs & Hc & ->).
  pose proof Hc as (device & cm & out & Hi & Hdev & Hcm & Ho & Hn & Hq & Ht & Hw & Hh & Hrange & Hty).
  exists (fst (model_to_compile m0 dims)), device, cm, r, t, w, h. simpl.
  repeat (split; [assumption || reflexivity |]).
  intros ->.
  unfold model_to_compile in *.
  destruct (reshape rt m0 [1; 3; snd dims; fst dims]) as [m |] eqn:Hre;
    simpl in *; [discriminate |].
  split; [assumption |]. split; [assumption |].
  intros dims' Hre'.
  pose proof (LoadModel_completes s path index dims' c m0 r t n w h Hp Hr) as H.
  unfold model_to_compile in H. rewrite Hre' in H. simpl in H.
  now apply H.
Qed.

Lemma LoadModel_caches_tensor_dims_witness :
  exists m device cm r t w h,
    let s := Scenario.enumerated TestDouble.fixed in
    let s' := loaded_state s (Scenario.configured TestDouble.fixed) [1; 3; 2; 2] [1; 3; 2; 2]
                (Scenario.blank [1; 3; 2; 2]) 2 2 2 in
    model s' = Some m /\
    available_devices s !! Z.to_nat 0 = Some device /\
    compile_model (TestDouble.runtime TestDouble.fixed) (core s') m "MULTI"
      (compile_properties device) = Ok cm /\
    create_infer_request (TestDouble.runtime TestDouble.fixed) cm = Ok r /\
    infer_request s' = Some r /\
    get_input_tensor (TestDouble.runtime TestDouble.fixed) r 0 = Ok t /\
    input_tensor s' = Some t /\
    t_shape t !! 3%nat = Some w /\
    t_shape t !! 2%nat = Some h /\
    input_w s' = Int.of_size_t w /\
    input_h s' = Int.of_size_t h /\
    nPixels s' = input_w s' * input_h s' /\
    Int.in_range (nPixels s') = true /\
    (2 = 2 ->
     read_model (TestDouble.runtime TestDouble.fixed) (core s') "model.xml" = Ok m /\
     reshape (TestDouble.runtime TestDouble.fixed) m [1; 3; snd (64, 64); fst (64, 64)]
     = Throws /\
     forall dims' : Z * Z,
       reshape (TestDouble.runtime TestDouble.fixed) m [1; 3; snd dims'; fst dims']
       = Throws ->
       LoadModel "model.xml" 0 dims' s = Ret 2 s').
Proof.
  apply (LoadModel_caches_tensor_dims (Scenario.enumerated TestDouble.fixed)
           "model.xml" 0 (64, 64) 2).
  - vm_compute. reflexivity.
  - right. reflexivity.
Defined.

(** ** Stripping the alpha channel *)

Lemma strip_alpha_length n : forall rgba rgb,
  strip_alpha n rgba = Some rgb -> length rgb = (3 * n)%nat.
Proof.
  induction n as [| n IH]; intros rgba rgb; simpl.
  - now intros [= <-].
  - destruct rgba as [| r [| g [| b [| a rest]]]]; try discriminate.
    destruct (strip_alpha n rest) as [out |] eqn:E; [| discriminate].
    intros [= <-]. simpl. rewrite (IH _ _ E). lia.
Qed.

Lemma strip_alpha_lookup n : forall rgba rgb (p c : nat),
  strip_alpha n rgba = Some rgb -> (p < n)%nat -> (c < 3)%nat ->
  rgb !! (3 * p + c)%nat = rgba !! (4 * p + c)%nat.
Proof.
  induction n as [| n IH]; intros rgba rgb p c; cbn [strip_alpha]; [lia |].
  destruct rgba as [| r [| g [| b [| a rest]]]]; try discriminate.
  destruct (strip_alpha n rest) as [out |] eqn:E; [| discriminate].
  intros [= <-] Hp Hc.
  destruct p as [| p].
  - destruct c as [| [| [| c]]]; try lia; reflexivity.
  - replace (3 * S p + c)%nat with (S (S (S (3 * p + c)))) by lia.
    replace (4 * S p + c)%nat with (S (S (S (S (4 * p + c))))) by lia.
    cbn [lookup list_lookup]. apply (IH _ _ _ _ E); lia.
Qed.

Lemma strip_alpha_Some n : forall rgba,
  (4 * n <= length rgba)%nat -> exists rgb, strip_alpha n rgba = Some rgb.
Proof.
  induction n as [| n IH]; intros rgba Hlen; simpl.
  - eauto.
  - destruct rgba as [| r [| g [| b [| a rest]]]]; simpl in Hlen; try lia.
    destruct (IH rest) as [out ->]; [lia |]. eauto.
Qed.

Lemma strip_alpha_same_rgb n : forall f1 f2,
  (4 * n <= length f1)%nat -> (4 * n <= length f2)%nat ->
  same_rgb n f1 f2 -> strip_alpha n f1 = strip_alpha n f2.
Proof.
  induction n as [| n IH]; intros f1 f2 H1 H2 Hs; cbn [strip_alpha]; [reflexivity |].
  destruct f1 as [| r1 [| g1 [| b1 [| a1 rest1]]]]; simpl in H1; try lia.
  destruct f2 as [| r2 [| g2 [| b2 [| a2 rest2]]]]; simpl in H2; try lia.
  pose proof (Hs 0%nat 0%nat ltac:(lia) ltac:(lia)) as E0.
  pose proof (Hs 0%nat 1%nat ltac:(lia) ltac:(lia)) as E1.
  pose proof (Hs 0%nat 2%nat ltac:(lia) ltac:(lia)) as E2.
  simpl in E0, E1, E2. injection E0 as ->. injection E1 as ->. injection E2 as ->.
  rewrite (IH rest1 rest2); [reflexivity | lia | lia |].
  intros p c Hp Hc.
  specialize (Hs (S p) c ltac:(lia) Hc).
  replace (4 * S p + c)%nat with (S (S (S (S (4 * p + c))))) in Hs by lia.
  exact Hs.
Qed.

(** ** Writing the input tensor *)

Section Filling.

Context {rt : Runtime}.

Lemma input_floats_set_floats buf (s : State rt) :
  (exists t, input_tensor s = Some t) -> input_floats (set_floats buf s) = buf.
Proof. intros [t Ht]. unfold set_floats, input_floats. rewrite Ht. reflexivity. Qed.

Lemma set_floats_twice b1 b2 (s : State rt) :
  set_floats b2 (set_floats b1 s) = set_floats b2 s.
Proof. unfold set_floats. destruct (input_tensor s) eqn:E; simpl; [reflexivity | now rewrite E]. Qed.

Lemma set_floats_same (s : State rt) :
  set_floats (input_floats s) s = s.
Proof.
  unfold set_floats, input_floats. destruct s as [? ? ? ? ? [[]|] ? ? ? ? ?]; reflexivity.
Qed.

Lemma writable_set_floats buf (s : State rt) :
  writable s -> writable (set_floats buf s).
Proof.
  intros [Hp [t Ht]]. unfold writable, set_floats. rewrite Ht. simpl. eauto.
Qed.

Lemma nPixels_set_floats buf (s : State rt) :
  nPixels (set_floats buf s) = nPixels s.
Proof. unfold set_floats. now destruct (input_tensor s). Qed.

Lemma store_input_Ret (s : State rt) i v :
  writable s -> 0 <= i < Z.of_nat (length (input_floats s)) ->
  store_input i v s
  = Ret tt (set_floats (<[Z.to_nat i := v]> (input_floats s)) s).
Proof.
  intros [Hp [t Ht]] Hi. unfold store_input, set_floats, input_floats in *.
  rewrite Hp, Ht in *.
  destruct (Z.leb_spec 0 i); [| lia].
  destruct (Z.ltb_spec i (Z.of_nat (length (t_data t)))); [| lia].
  reflexivity.
Qed.

Lemma fill_channel_Ret (tex : Mat) p ch (s : State rt) b :
  writable s ->
  0 <= p < nPixels s -> 0 <= ch < 3 ->
  3 * nPixels s <= Int.max_int ->
  3 * nPixels s <= Z.of_nat (length (input_floats s)) ->
  data tex !! Z.to_nat (p * 3 + ch) = Some b ->
  fill_channel tex p ch s
  = Ret tt (set_floats (<[Z.to_nat (ch * nPixels s + p) := normalize b]>
                          (input_floats s)) s).
Proof.
  intros Hw Hp Hch Hmax Hlen Hb.
  unfold fill_channel, num_channels.
  unfold bind at 1. unfold gets at 1.
  assert (Hmin : Int.min_int < 0) by (unfold Int.min_int; lia).
  assert (B1 : Int.min_int <= p * 3 <= Int.max_int) by lia.
  assert (B2 : Int.min_int <= p * 3 + ch <= Int.max_int) by lia.
  assert (B3 : Int.min_int <= ch * nPixels s <= Int.max_int) by nia.
  assert (B4 : Int.min_int <= ch * nPixels s + p <= Int.max_int) by nia.
  rewrite (bind_Ret _ _ _ _ _ (int_mul_Ret p 3 s B1)).
  rewrite (bind_Ret _ _ _ _ _ (int_add_Ret (p * 3) ch s B2)).
  rewrite (bind_Ret _ _ _ _ _ (at_index_Ret (data tex) (p * 3 + ch) b s ltac:(lia) Hb)).
  rewrite (bind_Ret _ _ _ _ _ (int_mul_Ret ch (nPixels s) s B3)).
  rewrite (bind_Ret _ _ _ _ _ (int_add_Ret (ch * nPixels s) p s B4)).
  apply store_input_Ret; [assumption | nia].
Qed.

End Filling.

Lemma planar_index_inj n p c p' c' :
  0 <= p < n -> 0 <= c < 3 -> 0 <= p' < n -> 0 <= c' < 3 ->
  Z.to_nat (c * n + p) = Z.to_nat (c' * n + p') -> p = p' /\ c = c'.
Proof.
  intros Hp Hc Hp' Hc' E.
  assert (E' : c * n + p = c' * n + p') by nia.
  assert (Hcs : c = 0 \/ c = 1 \/ c = 2) by lia.
  assert (Hcs' : c' = 0 \/ c' = 1 \/ c' = 2) by lia.
  destruct Hcs as [-> | [-> | ->]], Hcs' as [-> | [-> | ->]]; lia.
Qed.

Lemma written_none tex n buf : written tex n (fun _ _ => False) buf buf.
Proof. split; [reflexivity | split; [intros ? ? ? [] | reflexivity]]. Qed.

Lemma written_equiv tex n (W W' : Z -> Z -> Prop) buf buf' :
  (forall p c, W p c <-> W' p c) ->
  written tex n W buf buf' -> written tex n W' buf buf'.
Proof.
  intros HW (Hl & Hw & Ho). repeat split.
  - exact Hl.
  - intros p c b Hp. apply Hw. now apply HW.
  - intros j Hj. apply Ho. intros p c Hp. apply Hj. now apply HW.
Qed.

Lemma written_store tex n (W : Z -> Z -> Prop) buf0 buf1 p c b :
  written tex n W buf0 buf1 ->
  (forall p' c', W p' c' -> 0 <= p' < n /\ 0 <= c' < 3) ->
  0 <= p < n -> 0 <= c < 3 ->
  tex !! Z.to_nat (p * 3 + c) = Some b ->
  c * n + p < Z.of_nat (length buf1) ->
  written tex n (fun p' c' => W p' c' \/ (p' = p /\ c' = c)) buf0
    (<[Z.to_nat (c * n + p) := normalize b]> buf1).
Proof.
  intros (Hl & Hw & Ho) HW Hp Hc Hb Hlen. repeat split.
  - now rewrite length_insert.
  - intros p' c' b' Hin Hb'.
    assert (Hr : 0 <= p' < n /\ 0 <= c' < 3).
    { destruct Hin as [Hin | [-> ->]]; [now apply HW | lia]. }
    destruct (decide (Z.to_nat (c' * n + p') = Z.to_nat (c * n + p))) as [E | E].
    + destruct (planar_index_inj n p' c' p c) as [-> ->]; try tauto.
      rewrite Hb in Hb'. injection Hb' as <-.
      apply list_lookup_insert_eq.
      assert (0 <= c * n + p) by nia. lia.
    + rewrite list_lookup_insert_ne by congruence.
      destruct Hin as [Hin | [-> ->]]; [now apply Hw | congruence].
  - intros j Hj.
    rewrite list_lookup_insert_ne.
    + apply Ho. intros p' c' Hin. apply Hj. now left.
    + intros E. apply (Hj p c); [now right | now symmetry].
Qed.

Section Loops.

Context {rt : Runtime}.

Lemma fill_channels (tex : Mat) p (k : nat) :
  forall c0 (s : State rt) (W : Z -> Z -> Prop) buf0,
    writable s ->
    0 <= p < nPixels s -> 0 <= c0 -> c0 + Z.of_nat k <= 3 ->
    3 * nPixels s <= Int.max_int ->
    3 * nPixels s <= Z.of_nat (length (input_floats s)) ->
    3 * nPixels s <= Z.of_nat (length (data tex)) ->
    (forall p' c', W p' c' -> 0 <= p' < nPixels s /\ 0 <= c' < 3) ->
    written (data tex) (nPixels s) W buf0 (input_floats s) ->
    exists buf',
      for_loop k c0 (fill_channel tex p) s = Ret tt (set_floats buf' s) /\
      written (data tex) (nPixels s)
        (fun p' c' => W p' c' \/ (p' = p /\ c0 <= c' < c0 + Z.of_nat k))
        buf0 buf'.
Proof.
  induction k as [| k IH]; intros c0 s W buf0 Hw Hp Hc0 Hk Hmax Hlen Htex HW Hwr.
  - exists (input_floats s). split.
    + simpl. unfold ret. now rewrite set_floats_same.
    + apply (written_equiv _ _ W); [| exact Hwr]. intros; split; [tauto | intros [? | ?]; [tauto | lia]].
  - destruct (lookup_lt_is_Some_2 (data tex) (Z.to_nat (p * 3 + c0))) as [b Hb]; [lia |].
    cbn [for_loop].
    rewrite (bind_Ret _ _ _ _ _
               (fill_channel_Ret tex p c0 s b Hw Hp ltac:(lia) Hmax Hlen Hb)).
    set (s1 := set_floats _ s).
    assert (Hf1 : input_floats s1 = <[Z.to_nat (c0 * nPixels s + p) := normalize b]> (input_floats s)).
    { apply input_floats_set_floats. apply Hw. }
    assert (Hn1 : nPixels s1 = nPixels s) by apply nPixels_set_floats.
    destruct (IH (c0 + 1) s1
                (fun p' c' => W p' c' \/ (p' = p /\ c' = c0)) buf0)
      as (buf' & Hrun & Hwr').
    + now apply writable_set_floats.
    + lia.
    + lia.
    + lia.
    + lia.
    + rewrite Hf1, length_insert. lia.
    + lia.
    + rewrite Hn1. intros p' c' [Hin | [-> ->]]; [now apply HW | lia].
    + rewrite Hn1, Hf1. apply written_store; try assumption; nia.
    + exists buf'. split.
      * rewrite Hrun. unfold s1. now rewrite set_floats_twice.
      * rewrite Hn1 in Hwr'.
        revert Hwr'. apply written_equiv. intros p' c'. intuition lia.
Qed.

End Loops.

Section FillInput.

Context {rt : Runtime}.

Lemma fill_pixels (tex : Mat) (m : nat) :
  forall p0 (s : State rt) (W : Z -> Z -> Prop) buf0,
    writable s ->
    0 <= p0 -> p0 + Z.of_nat m <= nPixels s ->
    3 * nPixels s <= Int.max_int ->
    3 * nPixels s <= Z.of_nat (length (input_floats s)) ->
    3 * nPixels s <= Z.of_nat (length (data tex)) ->
    (forall p' c', W p' c' -> 0 <= p' < nPixels s /\ 0 <= c' < 3) ->
    written (data tex) (nPixels s) W buf0 (input_floats s) ->
    exists buf',
      for_loop m p0 (fill_pixel tex) s = Ret tt (set_floats buf' s) /\
      written (data tex) (nPixels s)
        (fun p' c' => W p' c' \/ (p0 <= p' < p0 + Z.of_nat m /\ 0 <= c' < 3))
        buf0 buf'.
Proof.
  induction m as [| m IH]; intros p0 s W buf0 Hw Hp0 Hm Hmax Hlen Htex HW Hwr.
  - exists (input_floats s). split.
    + simpl. unfold ret. now rewrite set_floats_same.
    + revert Hwr. apply written_equiv. intros p' c'. intuition lia.
  - cbn [for_loop].
    destruct (fill_channels tex p0 3 0 s W buf0) as (buf1 & Hrun1 & Hwr1);
      try assumption; try lia.
    unfold fill_pixel at 1. unfold num_channels.
    change (Z.to_nat 3) with 3%nat.
    rewrite (bind_Ret _ _ _ _ _ Hrun1).
    set (s1 := set_floats buf1 s).
    assert (Hf1 : input_floats s1 = buf1).
    { apply input_floats_set_floats. apply Hw. }
    assert (Hn1 : nPixels s1 = nPixels s) by apply nPixels_set_floats.
    assert (Hl1 : length buf1 = length (input_floats s)).
    { destruct Hwr1 as (Hl1 & _). destruct Hwr as (Hl0 & _). congruence. }
    destruct (IH (p0 + 1) s1
                (fun p' c' => W p' c' \/ (p' = p0 /\ 0 <= c' < 0 + Z.of_nat 3)) buf0)
      as (buf' & Hrun & Hwr').
    + now apply writable_set_floats.
    + lia.
    + lia.
    + lia.
    + rewrite Hf1, Hl1. lia.
    + lia.
    + rewrite Hn1. intros p' c' [Hin | [-> ?]]; [now apply HW | lia].
    + rewrite Hn1, Hf1. exact Hwr1.
    + exists buf'. split.
      * rewrite Hrun. unfold s1. now rewrite set_floats_twice.
      * rewrite Hn1 in Hwr'. revert Hwr'. apply written_equiv.
        intros p' c'. intuition lia.
Qed.

Lemma fill_input_Ret (tex : Mat) (s : State rt) :
  writable s ->
  0 <= nPixels s ->
  3 * nPixels s <= Int.max_int ->
  3 * nPixels s <= Z.of_nat (length (input_floats s)) ->
  3 * nPixels s <= Z.of_nat (length (data tex)) ->
  exists buf',
    fill_input tex s = Ret tt (set_floats buf' s) /\
    written (data tex) (nPixels s)
      (fun p c => 0 <= p < nPixels s /\ 0 <= c < 3) (input_floats s) buf'.
Proof.
  intros Hw Hn Hmax Hlen Htex.
  destruct (fill_pixels tex (Z.to_nat (nPixels s)) 0 s (fun _ _ => False)
              (input_floats s)) as (buf' & Hrun & Hwr);
    try assumption; try lia; try apply written_none.
  exists buf'. split; [exact Hrun |].
  revert Hwr. apply written_equiv. intros p c. intuition lia.
Qed.

(** *** Computations that only touch the floats of the input tensor *)

Lemma touches_ret {A} (a : A) : touches_floats (@ret rt A a).
Proof.
  intros s. simpl. exists (input_floats s). now rewrite set_floats_same.
Qed.

Lemma touches_gets {A} (f : State rt -> A) : touches_floats (gets f).
Proof.
  intros s. simpl. exists (input_floats s). now rewrite set_floats_same.
Qed.

Lemma touches_undefined {A} : touches_floats (@undefined rt A).
Proof. intros s. exact I. Qed.

Lemma length_input_floats_set_floats buf (s : State rt) :
  length buf = length (input_floats s) ->
  length (input_floats (set_floats buf s)) = length (input_floats s).
Proof.
  unfold set_floats, input_floats.
  destruct (input_tensor s) eqn:E; simpl; [auto | now rewrite E].
Qed.

Lemma touches_bind {A B} (m : M rt A) (k : A -> M rt B) :
  touches_floats m -> (forall a, touches_floats (k a)) ->
  touches_floats (bind m k).
Proof.
  intros Hm Hk s. unfold bind. specialize (Hm s).
  destruct (m s) as [a s1 | s1 |]; [| contradiction | exact I].
  destruct Hm as (b1 & -> & Hl1).
  specialize (Hk a (set_floats b1 s)).
  destruct (k a (set_floats b1 s)) as [b s2 | s2 |]; [| contradiction | exact I].
  destruct Hk as (b2 & -> & Hl2).
  exists b2. rewrite set_floats_twice. split; [reflexivity |].
  rewrite Hl2. now apply length_input_floats_set_floats.
Qed.

Lemma touches_int_mul a b : touches_floats (@int_mul rt a b).
Proof. unfold int_mul. destruct (Int.in_range _); [apply touches_ret | apply touches_undefined]. Qed.

Lemma touches_int_add a b : touches_floats (@int_add rt a b).
Proof. unfold int_add. destruct (Int.in_range _); [apply touches_ret | apply touches_undefined]. Qed.

Lemma touches_at_index {A} (v : list A) i : touches_floats (@at_index rt A v i).
Proof.
  unfold at_index. destruct (i <? 0); [apply touches_undefined |].
  destruct (v !! Z.to_nat i); [apply touches_ret | apply touches_undefined].
Qed.

Lemma touches_store_input i v : touches_floats (@store_input rt i v).
Proof.
  intros s. unfold store_input.
  destruct (input_data s); try exact I.
  destruct (input_tensor s) as [t |] eqn:Ht; try exact I.
  destruct ((0 <=? i) && (i <? Z.of_nat (length (t_data t)))); try exact I.
  exists (<[Z.to_nat i := v]> (t_data t)).
  unfold set_floats, input_floats. rewrite Ht.
  split; [reflexivity | apply length_insert].
Qed.

Lemma touches_for_loop (body : Z -> M rt unit) (n : nat) :
  (forall i, touches_floats (body i)) ->
  forall i, touches_floats (for_loop n i body).
Proof.
  intros Hb. induction n as [| n IH]; intros i; simpl.
  - apply touches_ret.
  - apply touches_bind; [apply Hb | intros _; apply IH].
Qed.

Lemma touches_fill_input (tex : Mat) : touches_floats (@fill_input rt tex).
Proof.
  unfold fill_input.
  apply touches_bind; [apply touches_gets |]. intros n.
  apply touches_for_loop. intros p.
  apply touches_for_loop. intros ch.
  repeat (apply touches_bind;
          [first [apply touches_gets | apply touches_int_mul
                 | apply touches_int_add | apply touches_at_index] | intros ?]).
  apply touches_store_input.
Qed.

Lemma stays_set_floats buf (s : State rt) :
  length buf = length (input_floats s) -> stays s (set_floats buf s).
Proof.
  intros Hl. split.
  - unfold set_floats, bindings. destruct s as [? ? ? ? ? [[]|] ? ? ? ? ?]; reflexivity.
  - now apply length_input_floats_set_floats.
Qed.

Lemma stays_refl (s : State rt) : stays s s.
Proof. split; reflexivity. Qed.

Lemma stays_trans (s1 s2 s3 : State rt) :
  stays s1 s2 -> stays s2 s3 -> stays s1 s3.
Proof. intros [H1 H2] [H3 H4]. split; congruence. Qed.

End FillInput.

(** ** The order on floats *)

Module F32Facts.

Import F32.

Ltac compare_cases :=
  repeat match goal with
  | |- context [Z.compare ?x ?y] => destruct (Z.compare_spec x y)
  | |- context [Pos.compare_cont Eq ?x ?y] =>
      change (Pos.compare_cont Eq x y) with (Pos.compare x y);
      destruct (Pos.compare_spec x y)
  end.

Ltac by_cases :=
  unfold ltb, leb, SFltb, SFleb, SFcompare;
  repeat match goal with
  | x : t |- _ => destruct x as [[] | [] | | [] ? ?]
  end;
  simpl; try congruence;
  compare_cases; simpl; try congruence; try lia.

Lemma leb_refl (a : t) : is_nan a = false -> leb a a = true.
Proof. by_cases. Qed.

Lemma ltb_leb (a b : t) : ltb a b = true -> leb a b = true.
Proof. by_cases. Qed.

Lemma ltb_false_leb (a b : t) :
  is_nan a = false -> is_nan b = false -> ltb a b = false -> leb b a = true.
Proof. by_cases. Qed.

Lemma leb_ltb_trans (x a b : t) :
  leb x a = true -> ltb a b = true -> ltb x b = true.
Proof. by_cases. Qed.

End F32Facts.

(** ** [std::max_element] *)

Lemma max_element_loop_bound (out : list F32.t) (todo : nat) :
  forall largest first i,
    max_element_loop out largest first todo = Some i ->
    (largest < first)%nat -> (i < first + todo)%nat.
Proof.
  induction todo as [| todo IH]; intros largest first i; simpl.
  - intros [= <-]. lia.
  - destruct (out !! largest) as [a |]; [| discriminate].
    destruct (out !! first) as [b |]; [| discriminate].
    intros H Hl. apply IH in H; [lia |].
    destruct (F32.ltb a b); lia.
Qed.

Lemma max_element_loop_total (out : list F32.t) (todo : nat) :
  forall largest first,
    (largest < first)%nat -> (first + todo <= length out)%nat ->
    exists i, max_element_loop out largest first todo = Some i.
Proof.
  induction todo as [| todo IH]; intros largest first Hl Hlen; simpl.
  - eauto.
  - destruct (lookup_lt_is_Some_2 out largest ltac:(lia)) as [a ->].
    destruct (lookup_lt_is_Some_2 out first ltac:(lia)) as [b ->].
    apply IH; [destruct (F32.ltb a b); lia | lia].
Qed.

Lemma max_element_loop_spec (out : list F32.t) (todo : nat) :
  forall largest first,
    (first + todo <= length out)%nat ->
    (forall j x, (j < first + todo)%nat -> out !! j = Some x ->
                 F32.is_nan x = false) ->
    prefix_max out first largest ->
    exists i, max_element_loop out largest first todo = Some i /\
              prefix_max out (first + todo) i.
Proof.
  induction todo as [| todo IH]; intros largest first Hlen Hnan Hinv; simpl.
  - exists largest. split; [reflexivity |]. now rewrite Nat.add_0_r.
  - destruct Hinv as (Hl & m & Hm & Hle & Hlt).
    rewrite Hm.
    destruct (lookup_lt_is_Some_2 out first ltac:(lia)) as [b Hb]. rewrite Hb.
    assert (Nm : F32.is_nan m = false) by (apply (Hnan largest); [lia | exact Hm]).
    assert (Nb : F32.is_nan b = false) by (apply (Hnan first); [lia | exact Hb]).
    replace (first + S todo)%nat with (S first + todo)%nat by lia.
    apply IH; [lia | intros j x Hj; apply Hnan; lia |].
    destruct (F32.ltb m b) eqn:Hcmp.
    + split; [lia |]. exists b. split; [exact Hb |]. split.
      * intros j x Hj Hx.
        destruct (decide (j = first)) as [-> | Hne].
        -- rewrite Hb in Hx. injection Hx as <-. now apply F32Facts.leb_refl.
        -- apply F32Facts.ltb_leb.
           apply (F32Facts.leb_ltb_trans x m b); [| exact Hcmp].
           apply (Hle j); [lia | exact Hx].
      * intros j x Hj Hx.
        apply (F32Facts.leb_ltb_trans x m b); [| exact Hcmp].
        apply (Hle j); [lia | exact Hx].
    + split; [lia |]. exists m. split; [exact Hm |]. split.
      * intros j x Hj Hx.
        destruct (decide (j = first)) as [-> | Hne].
        -- rewrite Hb in Hx. injection Hx as <-. now apply F32Facts.ltb_false_leb.
        -- apply (Hle j); [lia | exact Hx].
      * exact Hlt.
Qed.

Lemma max_element_spec (out : list F32.t) (n : Z) :
  1 <= n <= Z.of_nat (length out) -> no_nan out n ->
  exists v, max_element out n = Some v /\ first_max out n v.
Proof.
  intros Hn Hnan. unfold max_element.
  destruct (Z.ltb_spec n 0); [lia |].
  destruct (Z.eqb_spec n 0); [lia |].
  destruct (lookup_lt_is_Some_2 out 0%nat ltac:(lia)) as [m0 Hm0].
  destruct (max_element_loop_spec out (Z.to_nat n - 1) 0%nat 1%nat)
    as (i & Hrun & Hinv).
  - lia.
  - intros j x Hj Hx. apply (Hnan (Z.of_nat j)); [lia | now rewrite Nat2Z.id].
  - split; [lia |]. exists m0. split; [exact Hm0 |]. split.
    + intros j x Hj Hx. assert (j = 0%nat) as -> by lia.
      rewrite Hm0 in Hx. injection Hx as <-.
      apply F32Facts.leb_refl. apply (Hnan 0); [lia | exact Hm0].
    + intros j x Hj. lia.
  - rewrite Hrun. exists (Z.of_nat i). split; [reflexivity |].
    destruct Hinv as (Hl & m & Hm & Hle & Hlt).
    split; [lia |]. exists m. rewrite Nat2Z.id. split; [exact Hm |]. split.
    + intros j x Hj. apply Hle. lia.
    + intros j x Hj. apply Hlt. lia.
Qed.

Lemma max_element_total (out : list F32.t) (n : Z) :
  0 <= n <= Z.of_nat (length out) -> exists v, max_element out n = Some v.
Proof.
  intros Hn. unfold max_element.
  destruct (Z.ltb_spec n 0); [lia |].
  destruct (Z.eqb_spec n 0); [eauto |].
  destruct (max_element_loop_total out (Z.to_nat n - 1) 0%nat 1%nat)
    as [i ->]; [lia | lia |].
  simpl. eauto.
Qed.

Lemma max_element_range (out : list F32.t) (n v : Z) :
  max_element out n = Some v -> (n = 0 /\ v = 0) \/ 0 <= v < n.
Proof.
  unfold max_element.
  destruct (Z.ltb_spec n 0); [discriminate |].
  destruct (Z.eqb_spec n 0) as [-> | Hn]; [intros [= <-]; now left |].
  destruct (max_element_loop out 0 1 (Z.to_nat n - 1)) as [i |] eqn:E;
    [| discriminate].
  intros [= <-]. right.
  apply max_element_loop_bound in E; lia.
Qed.

Section Inference.

Context {rt : Runtime}.

Lemma stays_set_infer_request (s : State rt) r r' :
  infer_request s = Some r -> stays s (set_infer_request (Some r') s).
Proof.
  intros Hr. split; [| reflexivity].
  unfold bindings. simpl. now rewrite Hr.
Qed.

Lemma forward_pass_cases (s : State rt) :
  match forward_pass s with
  | Undef => True
  | Exn s' => stays s s'
  | Ret v s' =>
      stays s s' /\
      exists r r' t i,
        infer_request s = Some r /\
        infer rt r (input_floats s) = Ok r' /\
        s' = set_infer_request (Some r') s /\
        get_output_tensor rt r' = Ok t /\
        t_type t = f32 /\
        max_element (t_data t) (num_classes s) = Some i /\
        v = Int.of_size_t i
  end.
Proof.
  unfold forward_pass, bind, gets, call, modify, ret, throw, undefined.
  destruct (infer_request s) as [r |] eqn:Hr; [| apply stays_refl].
  destruct (infer rt r (input_floats s)) as [r' |] eqn:Hi; [| apply stays_refl].
  pose proof (stays_set_infer_request s r r' Hr) as Hst.
  destruct (get_output_tensor rt r') as [t |] eqn:Ho; [| exact Hst].
  unfold data_float.
  destruct (t_type t) eqn:Hty; try exact Hst.
  simpl.
  destruct (max_element (t_data t) (num_classes s)) as [i |] eqn:Hm; [| exact I].
  split; [exact Hst |].
  exists r, r', t, i. repeat split; assumption || reflexivity.
Qed.

Lemma forward_pass_total (s : State rt) :
  0 <= num_classes s -> outputs_hold (rt := rt) (num_classes s) ->
  forward_pass s <> Undef.
Proof.
  intros Hn Hout.
  unfold forward_pass, bind, gets, call, modify, ret, throw, undefined.
  destruct (infer_request s) as [r |] eqn:Hr; [| discriminate].
  destruct (infer rt r (input_floats s)) as [r' |] eqn:Hi; [| discriminate].
  destruct (get_output_tensor rt r') as [t |] eqn:Ho; [| discriminate].
  unfold data_float.
  destruct (t_type t) eqn:Hty; try discriminate.
  simpl.
  destruct (max_element_total (t_data t) (num_classes s)) as [v ->];
    [| discriminate].
  split; [exact Hn |]. exact (Hout r _ r' t Hi Ho).
Qed.

Lemma inference_body_unfold (frame : list Byte.byte) (s : State rt) :
  inference_body frame s
  = match cvtColor_RGBA2RGB (Mat_8UC4 (input_h s) (input_w s) frame) with
    | Some (Ok tex) => bind (fill_input tex) (fun _ => forward_pass) s
    | Some Throws => Exn s
    | None => Undef
    end.
Proof.
  unfold inference_body, bind at 1 2 3. unfold gets at 1 2.
  destruct (cvtColor_RGBA2RGB _) as [[tex |] |]; reflexivity.
Qed.

Lemma PerformInference_unfold (frame : list Byte.byte) (s : State rt) :
  PerformInference frame s
  = match inference_body frame s with
    | Ret v s' => Ret v s'
    | Exn s' => Ret (-2) s'
    | Undef => Undef
    end.
Proof.
  unfold PerformInference, bind, try_catch, ret.
  destruct (inference_body frame s); reflexivity.
Qed.

Lemma num_classes_set_floats buf (s : State rt) :
  num_classes (set_floats buf s) = num_classes s.
Proof. unfold set_floats. now destruct (input_tensor s). Qed.

Lemma inference_body_cases (frame : list Byte.byte) (s : State rt) :
  match inference_body frame s with
  | Undef => True
  | Exn s' => stays s s'
  | Ret v s' =>
      stays s s' /\
      exists r' t i,
        infer_request s' = Some r' /\
        get_output_tensor rt r' = Ok t /\
        t_type t = f32 /\
        max_element (t_data t) (num_classes s) = Some i /\
        v = Int.of_size_t i
  end.
Proof.
  rewrite inference_body_unfold.
  destruct (cvtColor_RGBA2RGB _) as [[tex |] |]; [| apply stays_refl | exact I].
  unfold bind.
  pose proof (touches_fill_input tex s) as Hf.
  destruct (fill_input tex s) as [[] s1 | s1 |]; [| contradiction | exact I].
  destruct Hf as (buf & -> & Hl).
  pose proof (stays_set_floats buf s Hl) as Hst.
  pose proof (forward_pass_cases (set_floats buf s)) as Hp.
  destruct (forward_pass (set_floats buf s)) as [v s2 | s2 |]; [| | exact I].
  - destruct Hp as (Hst2 & r & r' & t & i & Hr & Hi & -> & Ho & Hty & Hm & ->).
    split; [eapply stays_trans; eassumption |].
    exists r', t, i. rewrite num_classes_set_floats in Hm.
    repeat split; assumption || reflexivity.
  - eapply stays_trans; eassumption.
Qed.

Lemma cvtColor_ready (frame : list Byte.byte) (s : State rt) :
  nPixels s = input_w s * input_h s ->
  0 < input_w s -> 0 < input_h s ->
  4 * nPixels s <= Z.of_nat (length frame) ->
  exists rgb,
    strip_alpha (Z.to_nat (nPixels s)) frame = Some rgb /\
    cvtColor_RGBA2RGB (Mat_8UC4 (input_h s) (input_w s) frame)
    = Some (Ok (mkMat (input_h s) (input_w s) 3 rgb)).
Proof.
  intros Hn Hw Hh Hlen.
  destruct (strip_alpha_Some (Z.to_nat (nPixels s)) frame) as [rgb Hrgb]; [lia |].
  exists rgb. split; [exact Hrgb |].
  unfold cvtColor_RGBA2RGB, Mat_8UC4. simpl.
  destruct (Z.leb_spec (input_h s) 0); [lia |].
  destruct (Z.leb_spec (input_w s) 0); [lia |]. simpl.
  replace (input_h s * input_w s) with (nPixels s) by lia.
  now rewrite Hrgb.
Qed.

Lemma inference_body_ready (frame : list Byte.byte) (s : State rt) :
  ready s -> 0 < input_w s -> 0 < input_h s ->
  4 * nPixels s <= Z.of_nat (length frame) ->
  exists rgb buf',
    strip_alpha (Z.to_nat (nPixels s)) frame = Some rgb /\
    written rgb (nPixels s) (fun p c => 0 <= p < nPixels s /\ 0 <= c < 3)
      (input_floats s) buf' /\
    inference_body frame s = forward_pass (set_floats buf' s).
Proof.
  intros (Hn & Hwr & Hlen & Hmax) Hw Hh Hfr.
  destruct (cvtColor_ready frame s Hn Hw Hh Hfr) as (rgb & Hrgb & Hcvt).
  pose proof (strip_alpha_length _ _ _ Hrgb) as Hlrgb.
  destruct (fill_input_Ret (mkMat (input_h s) (input_w s) 3 rgb) s)
    as (buf' & Hrun & Hwritten); try assumption; try nia.
  { simpl. lia. }
  exists rgb, buf'. split; [exact Hrgb |]. split; [exact Hwritten |].
  rewrite inference_body_unfold, Hcvt.
  now rewrite (bind_Ret _ _ _ _ _ Hrun).
Qed.

End Inference.

Section Calls.

Context {rt : Runtime}.

Lemma forward_pass_floats (s : State rt) :
  match forward_pass s with
  | Ret _ s' => input_floats s' = input_floats s
  | Exn s' => input_floats s' = input_floats s
  | Undef => True
  end.
Proof.
  unfold forward_pass, bind, gets, call, modify, ret, throw, undefined.
  destruct (infer_request s) as [r |]; [| reflexivity].
  destruct (infer rt r (input_floats s)) as [r' |]; [| reflexivity].
  destruct (get_output_tensor rt r') as [t |]; [| reflexivity].
  unfold data_float. destruct (t_type t); try reflexivity. simpl.
  destruct (max_element (t_data t) (num_classes s)); [reflexivity | exact I].
Qed.

Lemma stays_fields (s s' : State rt) :
  stays s s' ->
  core s' = core s /\ model s' = model s /\
  compiled_model s' = compiled_model s /\
  available_devices s' = available_devices s /\
  input_data s' = input_data s /\
  num_classes s' = num_classes s /\
  input_w s' = input_w s /\ input_h s' = input_h s /\
  nPixels s' = nPixels s /\
  ((exists t, input_tensor s = Some t) -> exists t', input_tensor s' = Some t').
Proof.
  intros [Hb _]. unfold bindings in Hb.
  injection Hb as H1 H2 H3 H4 H5 H6 H7 H8 H9 H10 H11.
  repeat (split; [assumption |]).
  intros [t Ht]. rewrite Ht in H6.
  destruct (input_tensor s'); [eauto | discriminate].
Qed.

Lemma stays_keeps_loaded (s s' : State rt) : stays s s' -> keeps_loaded s s'.
Proof.
  intros [Hb Hl]. split; [| exact Hl].
  unfold bindings in Hb. unfold loaded_view. congruence.
Qed.



Lemma keeps_loaded_fields (s s' : State rt) :
  keeps_loaded s s' ->
  input_data s' = input_data s /\
  num_classes s' = num_classes s /\
  input_w s' = input_w s /\ input_h s' = input_h s /\
  nPixels s' = nPixels s /\
  ((exists t, input_tensor s = Some t) -> exists t', input_tensor s' = Some t').
Proof.
  intros [Hb _]. unfold loaded_view in Hb.
  injection Hb as H1 H2 H3 H4 H5 H6 H7.
  repeat (split; [assumption |]).
  intros [t Ht]. rewrite Ht in H2.
  destruct (input_tensor s'); [eauto | discriminate].
Qed.

Lemma ready_keeps_loaded (s s' : State rt) :
  ready s -> keeps_loaded s s' -> ready s'.
Proof.
  intros (Hn & [Hp Ht] & Hlen & Hmax) Hst.
  pose proof (keeps_loaded_fields s s' Hst) as (Hd & _ & Hw & Hh & Hpx & Hts).
  destruct Hst as [_ Hl].
  unfold ready, writable. rewrite Hpx, Hw, Hh, Hd, Hl. auto.
Qed.

Lemma PerformInference_stays (frame : list Byte.byte) (s : State rt) v s' :
  PerformInference frame s = Ret v s' -> stays s s'.
Proof.
  rewrite PerformInference_unfold.
  pose proof (inference_body_cases frame s) as H.
  destruct (inference_body frame s) as [v0 s0 | s0 |]; [| | discriminate].
  - intros [= <- <-]. apply H.
  - intros [= <- <-]. exact H.
Qed.

Lemma GetDeviceCount_throws (s : State rt) :
  get_available_devices rt (core s) = Throws ->
  GetDeviceCount s = Exn (set_available_devices [] s).
Proof.
  intros Hd. unfold GetDeviceCount, bind, modify, gets. simpl. now rewrite Hd.
Qed.






(** What a call does in a state that is ready: it returns, the bindings
    stay, and the value is [-2] exactly when the [try] block threw. *)
Lemma PerformInference_ready (frame : list Byte.byte) (s : State rt) (C : Z) :
  ready s ->
  num_classes s = C -> 0 <= C <= Int.max_int ->
  outputs_hold (rt := rt) C ->
  4 * nPixels s <= Z.of_nat (length frame) ->
  exists v s',
    PerformInference frame s = Ret v s' /\
    stays s s' /\
    ((inference_body frame s = Ret v s' /\
      (0 <= v < C \/ (C = 0 /\ v = 0))) \/
     (inference_body frame s = Exn s' /\ v = -2)).
Proof.
  intros Hr HC HCr Hout Hfr.
  rewrite PerformInference_unfold.
  pose proof (inference_body_cases frame s) as Hcases.
  assert (Hdef : inference_body frame s <> Undef).
  { destruct (Z.leb_spec (input_w s) 0) as [Hw | Hw];
      [| destruct (Z.leb_spec (input_h s) 0) as [Hh | Hh]].
    - rewrite inference_body_unfold. unfold cvtColor_RGBA2RGB, Mat_8UC4. simpl.
      destruct (Z.leb_spec (input_w s) 0); [| lia].
      rewrite orb_true_r. discriminate.
    - rewrite inference_body_unfold. unfold cvtColor_RGBA2RGB, Mat_8UC4. simpl.
      destruct (Z.leb_spec (input_h s) 0); [| lia]. discriminate.
    - destruct (inference_body_ready frame s Hr Hw Hh Hfr)
        as (rgb & buf' & _ & _ & ->).
      apply forward_pass_total; rewrite num_classes_set_floats, HC;
        [lia | exact Hout]. }
  destruct (inference_body frame s) as [v s' | s' |]; [| | contradiction].
  - destruct Hcases as (Hst & r' & t & i & _ & _ & _ & Hm & ->).
    exists (Int.of_size_t i), s'. split; [reflexivity |]. split; [exact Hst |].
    left. split; [reflexivity |].
    rewrite HC in Hm. apply max_element_range in Hm.
    rewrite IntFacts.of_size_t_small by lia. lia.
  - exists (-2), s'. split; [reflexivity |]. split; [exact Hcases |].
    right. split; reflexivity.
Qed.

(** *** Independence from [core] *)

Lemma core_blind_ret {A} (a : A) : core_blind (@ret rt A a).
Proof. intros c s. reflexivity. Qed.

Lemma core_blind_undefined {A} : core_blind (@undefined rt A).
Proof. intros c s. reflexivity. Qed.

Lemma core_blind_throw {A} : core_blind (@throw rt A).
Proof. intros c s. reflexivity. Qed.

Lemma core_blind_call {A} (r : result A) : core_blind (@call rt A r).
Proof. destruct r; [apply core_blind_ret | apply core_blind_throw]. Qed.

Lemma core_blind_gets {A} (f : State rt -> A) :
  (forall c s, f (set_core c s) = f s) -> core_blind (gets f).
Proof. intros Hf c s. unfold gets. simpl. now rewrite Hf. Qed.

Lemma core_blind_modify (f : State rt -> State rt) :
  (forall c s, f (set_core c s) = set_core c (f s)) -> core_blind (modify f).
Proof. intros Hf c s. unfold modify. simpl. now rewrite Hf. Qed.

Lemma core_blind_bind {A B} (m : M rt A) (k : A -> M rt B) :
  core_blind m -> (forall a, core_blind (k a)) -> core_blind (bind m k).
Proof.
  intros Hm Hk c s. unfold bind. rewrite Hm.
  destruct (m s) as [a s1 | s1 |]; simpl; [apply Hk | reflexivity | reflexivity].
Qed.

Lemma core_blind_try_catch {A} (body handler : M rt A) :
  core_blind body -> core_blind handler -> core_blind (try_catch body handler).
Proof.
  intros Hb Hh c s. unfold try_catch. rewrite Hb.
  destruct (body s) as [a s1 | s1 |]; simpl; [reflexivity | apply Hh | reflexivity].
Qed.

Lemma core_blind_for_loop (body : Z -> M rt unit) (n : nat) :
  (forall i, core_blind (body i)) -> forall i, core_blind (for_loop n i body).
Proof.
  intros Hb. induction n as [| n IH]; intros i; simpl.
  - apply core_blind_ret.
  - apply core_blind_bind; [apply Hb | intros _; apply IH].
Qed.

Lemma core_blind_int_mul a b : core_blind (@int_mul rt a b).
Proof.
  unfold int_mul. destruct (Int.in_range _);
    [apply core_blind_ret | apply core_blind_undefined].
Qed.

Lemma core_blind_int_add a b : core_blind (@int_add rt a b).
Proof.
  unfold int_add. destruct (Int.in_range _);
    [apply core_blind_ret | apply core_blind_undefined].
Qed.

Lemma core_blind_at_index {A} (v : list A) i : core_blind (@at_index rt A v i).
Proof.
  unfold at_index. destruct (i <? 0); [apply core_blind_undefined |].
  destruct (v !! Z.to_nat i); [apply core_blind_ret | apply core_blind_undefined].
Qed.

Lemma core_blind_store_input i v : core_blind (@store_input rt i v).
Proof.
  intros c s. unfold store_input. simpl.
  destruct (input_data s); try reflexivity.
  destruct (input_tensor s) as [t |]; try reflexivity.
  destruct ((0 <=? i) && (i <? Z.of_nat (length (t_data t)))); reflexivity.
Qed.

Ltac core_blind_step :=
  first [ apply core_blind_ret | apply core_blind_undefined
        | apply core_blind_throw | apply core_blind_call
        | apply core_blind_int_mul | apply core_blind_int_add
        | apply core_blind_at_index | apply core_blind_store_input
        | apply core_blind_gets; reflexivity
        | apply core_blind_modify; reflexivity
        | apply core_blind_for_loop; intros ?
        | apply core_blind_try_catch
        | apply core_blind_bind; [| intros ?] ].

Lemma core_blind_PerformInference (frame : list Byte.byte) :
  core_blind (@PerformInference rt frame).
Proof.
  unfold PerformInference, inference_body, fill_input.
  repeat core_blind_step.
  - destruct (cvtColor_RGBA2RGB _) as [r |]; repeat core_blind_step.
  - match goal with |- core_blind (match ?r with _ => _ end) => destruct r end;
      repeat core_blind_step.
    match goal with |- core_blind (match ?r with _ => _ end) => destruct r end;
      repeat core_blind_step.
Qed.

End Calls.

(** ** The normalisation of a byte *)

Lemma normalize_range (b : Byte.byte) :
  F32.leb F32.zero (normalize b) = true /\ F32.leb (normalize b) F32.one = true.
Proof. destruct b; vm_compute; split; reflexivity. Qed.

Lemma normalize_rounding (b : Byte.byte) :
  (Qabs (F32.to_Q (normalize b) - (byte_value b # 255))
   <= (byte_value b # 255) * (1 # 2 ^ 24))%Q.
Proof. destruct b; apply Qle_bool_imp_le; vm_compute; reflexivity. Qed.


Lemma PerformInference_returns {rt : Runtime} (frame : list Byte.byte)
    (s : State rt) :
  ready s -> 0 < input_w s -> 0 < input_h s ->
  4 * nPixels s <= Z.of_nat (length frame) ->
  0 <= num_classes s -> outputs_hold (rt := rt) (num_classes s) ->
  exists rgb buf' v s',
    strip_alpha (Z.to_nat (nPixels s)) frame = Some rgb /\
    written rgb (nPixels s) (fun p c => 0 <= p < nPixels s /\ 0 <= c < 3)
      (input_floats s) buf' /\
    PerformInference frame s = Ret v s' /\
    input_floats s' = buf'.
Proof.
  intros Hr Hw Hh Hfr HC Hout.
  destruct (inference_body_ready frame s Hr Hw Hh Hfr)
    as (rgb & buf' & Hrgb & Hwr & Hbody).
  exists rgb, buf'.
  rewrite PerformInference_unfold, Hbody.
  pose proof (forward_pass_total (set_floats buf' s)) as Htot.
  rewrite num_classes_set_floats in Htot. specialize (Htot HC Hout).
  pose proof (forward_pass_floats (set_floats buf' s)) as Hfl.
  rewrite input_floats_set_floats in Hfl by apply Hr.
  destruct (forward_pass (set_floats buf' s)) as [v s' | s' |];
    [exists v, s' | exists (-2), s' | contradiction]; auto.
Qed.

(** C3. In a state a load has made ready, [PerformInference] leaves in the
    storage of the input tensor, for every pixel [p] in [0, H*W) and every
    channel [c] in {0, 1, 2}, at index [c * H*W + p] the float
    [source_rgb[p * 3 + c] / 255.0f], where [source_rgb] is the frame
    without its alpha bytes. Each such float lies between 0 and 1 and is
    within a relative 2^-24 (binary32 rounding) of the exact quotient. For a
    frame whose colour bytes all equal [b0], all [3 * H*W] floats equal
    [b0 / 255.0f]. *)
Theorem PerformInference_fills_input_tensor {rt : Runtime} (s : State rt)
    (frame : list Byte.byte) :
  ready s -> 0 < input_w s -> 0 < input_h s ->
  4 * nPixels s <= Z.of_nat (length frame) ->
  0 <= num_classes s -> outputs_hold (rt := rt) (num_classes s) ->
  exists v s' source_rgb,
    PerformInference frame s = Ret v s' /\
    strip_alpha (Z.to_nat (nPixels s)) frame = Some source_rgb /\
    (forall p c : nat, (p < Z.to_nat (nPixels s))%nat -> (c < 3)%nat ->
       source_rgb !! (3 * p + c)%nat = frame !! (4 * p + c)%nat) /\
    length (input_floats s') = length (input_floats s) /\
    (forall p c b, 0 <= p < nPixels s -> 0 <= c < 3 ->
       source_rgb !! Z.to_nat (p * 3 + c) = Some b ->
       input_floats s' !! Z.to_nat (c * nPixels s + p) = Some (normalize b)) /\
    (forall b,
       F32.leb F32.zero (normalize b) = true /\
       F32.leb (normalize b) F32.one = true /\
       (Qabs (F32.to_Q (normalize b) - (byte_value b # 255))
        <= (byte_value b # 255) * (1 # 2 ^ 24))%Q) /\
    (forall b0,
       (forall p c : nat, (p < Z.to_nat (nPixels s))%nat -> (c < 3)%nat ->
          frame !! (4 * p + c)%nat = Some b0) ->
       forall i, 0 <= i < 3 * nPixels s ->
         input_floats s' !! Z.to_nat i = Some (normalize b0)).
Proof.
  intros Hr Hw Hh Hfr HC Hout.
  destruct (PerformInference_returns frame s Hr Hw Hh Hfr HC Hout)
    as (rgb & buf' & v & s' & Hrgb & (Hl & Hwr & _) & Hrun & Hfl).
  exists v, s', rgb. rewrite Hfl.
  split; [exact Hrun |]. split; [exact Hrgb |].
  assert (Hlook : forall p c : nat,
             (p < Z.to_nat (nPixels s))%nat -> (c < 3)%nat ->
             rgb !! (3 * p + c)%nat = frame !! (4 * p + c)%nat).
  { intros p c. now apply strip_alpha_lookup. }
  split; [exact Hlook |]. split; [exact Hl |].
  split.
  { intros p c b Hp Hc Hb. apply Hwr; [lia | exact Hb]. }
  split.
  { intros b. pose proof (normalize_range b) as [H0 H1].
    pose proof (normalize_rounding b). auto. }
  intros b0 Hsolid i Hi.
  assert (Hn : 0 < nPixels s) by lia.
  pose proof (Z.div_mod i (nPixels s) ltac:(lia)) as Hdm.
  pose proof (Z.mod_pos_bound i (nPixels s) Hn) as Hmod.
  assert (Hdiv : 0 <= i / nPixels s < 3).
  { split; [apply Z.div_pos; lia | apply Z.div_lt_upper_bound; lia]. }
  replace i with (i / nPixels s * nPixels s + i mod nPixels s) at 1 by lia.
  apply Hwr; [lia |].
  replace (Z.to_nat (i mod nPixels s * 3 + i / nPixels s))
    with (3 * Z.to_nat (i mod nPixels s) + Z.to_nat (i / nPixels s))%nat by lia.
  rewrite Hlook by lia. apply Hsolid; lia.
Qed.

(** C9. Two frames that agree on the red, green and blue bytes of every
    pixel, whatever their alpha bytes, give the same outcome of
    [PerformInference] from the same state: the same class index and the
    same globals afterwards. *)
Theorem PerformInference_ignores_alpha {rt : Runtime} (s : State rt)
    (frame1 frame2 : list Byte.byte) :
  (4 * Z.to_nat (input_h s * input_w s) <= length frame1)%nat ->
  (4 * Z.to_nat (input_h s * input_w s) <= length frame2)%nat ->
  same_rgb (Z.to_nat (input_h s * input_w s)) frame1 frame2 ->
  PerformInference frame1 s = PerformInference frame2 s.
Proof.
  intros H1 H2 Hrgb.
  rewrite !PerformInference_unfold, !inference_body_unfold.
  unfold cvtColor_RGBA2RGB, Mat_8UC4. simpl.
  now rewrite (strip_alpha_same_rgb _ frame1 frame2 H1 H2 Hrgb).
Qed.

(** C4. When [PerformInference] returns a value other than [-2], the value
    is the offset [std::max_element] finds among the [C] floats of the
    output tensor: when the tensor holds them and none is a NaN, no logit
    is greater than the one at that index and every earlier logit is
    strictly smaller, so ties go to the lowest index. Three logits equal to
    [0.5f] give 0. *)
Theorem PerformInference_argmax {rt : Runtime} (s : State rt)
    (frame : list Byte.byte) (v : Z) (s' : State rt) :
  PerformInference frame s = Ret v s' ->
  v <> -2 ->
  1 <= num_classes s <= Int.max_int ->
  (exists r' t,
     infer_request s' = Some r' /\
     get_output_tensor rt r' = Ok t /\
     t_type t = f32 /\
     max_element (t_data t) (num_classes s) = Some v /\
     (num_classes s <= Z.of_nat (length (t_data t)) ->
      no_nan (t_data t) (num_classes s) ->
      first_max (t_data t) (num_classes s) v)) /\
  max_element [F32.half; F32.half; F32.half] 3 = Some 0.
Proof.
  intros Hrun Hv HC. split; [| reflexivity].
  rewrite PerformInference_unfold in Hrun.
  pose proof (inference_body_cases frame s) as Hcases.
  destruct (inference_body frame s) as [v0 s0 | s0 |]; [| | discriminate].
  2:{ injection Hrun as <- <-. contradiction. }
  injection Hrun as <- <-.
  destruct Hcases as (_ & r' & t & i & Hr & Ho & Hty & Hm & ->).
  pose proof (max_element_range _ _ _ Hm) as Hi.
  rewrite IntFacts.of_size_t_small by lia.
  exists r', t. repeat (split; [assumption |]).
  intros Hlen Hnan.
  destruct (max_element_spec (t_data t) (num_classes s)) as (v' & Hm' & Hfirst);
    [lia | exact Hnan |].
  rewrite Hm in Hm'. injection Hm' as ->. exact Hfirst.
Qed.

(** C5. When [LoadModel] returns 1 the runtime failed to parse the file,
    and the compiled model, the infer request, the input tensor with its
    storage, the cached pointer, the class count and the cached dimensions
    (and the parsed model and the device list) are what they were before
    the call: only the core has the cache directory set. Every later
    [PerformInference] does what it would have done without the call. *)
Theorem LoadModel_parse_failure_keeps_state {rt : Runtime} (s s' : State rt)
    (path : string) (index : Z) (dims : Z * Z) :
  LoadModel path index dims s = Ret 1 s' ->
  read_model rt (core s') path = Throws /\
  compiled_model s' = compiled_model s /\
  infer_request s' = infer_request s /\
  input_tensor s' = input_tensor s /\
  input_data s' = input_data s /\
  num_classes s' = num_classes s /\
  input_w s' = input_w s /\
  input_h s' = input_h s /\
  nPixels s' = nPixels s /\
  model s' = model s /\
  available_devices s' = available_devices s /\
  forall frame,
    PerformInference frame s'
    = outcome_map (set_core (core s')) (PerformInference frame s).
Proof.
  intros HL.
  destruct (LoadModel_inv _ _ _ _ _ _ HL) as (c & Hp & [(Hr & _ & ->) | H]).
  - simpl. repeat (split; [assumption || reflexivity |]).
    intros frame. apply core_blind_PerformInference.
  - destruct H as (m0 & r & t & n & w & h & _ & Hs & _).
    unfold model_to_compile in Hs.
    destruct (reshape rt m0 [1; 3; snd dims; fst dims]); discriminate.
Qed.

(** C7, as the code has it. With a class count of 0 [PerformInference]
    returns 0 when the [try] block completes ([std::max_element] on an
    empty range returns its first iterator, so the distance is 0 and no
    logit is read) and [-2] when something in the block throws; the initial
    [-1] is never returned. In a ready state the call does return. *)
Theorem PerformInference_no_classes {rt : Runtime} (s : State rt)
    (frame : list Byte.byte) :
  num_classes s = 0 ->
  (forall v s',
     PerformInference frame s = Ret v s' ->
     (v = 0 /\ inference_body frame s = Ret 0 s') \/
     (v = -2 /\ inference_body frame s = Exn s')) /\
  (ready s -> outputs_hold (rt := rt) 0 ->
   4 * nPixels s <= Z.of_nat (length frame) ->
   exists v s', PerformInference frame s = Ret v s' /\ v <> -1).
Proof.
  intros HC.
  assert (Hfirst : forall v s',
             PerformInference frame s = Ret v s' ->
             (v = 0 /\ inference_body frame s = Ret 0 s') \/
             (v = -2 /\ inference_body frame s = Exn s')).
  { intros v s' Hrun.
    rewrite PerformInference_unfold in Hrun.
    pose proof (inference_body_cases frame s) as Hcases.
    destruct (inference_body frame s) as [v0 s0 | s0 |]; [| | discriminate].
    - injection Hrun as <- <-.
      destruct Hcases as (_ & r' & t & i & _ & _ & _ & Hm & ->).
      rewrite HC in Hm. unfold max_element in Hm. simpl in Hm.
      injection Hm as <-. left. split; reflexivity.
    - injection Hrun as <- <-. right. split; reflexivity. }
  split; [exact Hfirst |].
  intros Hr Hout Hfr.
  destruct (PerformInference_ready frame s 0 Hr HC) as (v & s' & Hrun & _);
    [unfold Int.max_int; lia | exact Hout | exact Hfr |].
  exists v, s'. split; [exact Hrun |].
  destruct (Hfirst v s' Hrun) as [[-> _] | [-> _]]; discriminate.
Qed.

Lemma GetDeviceCount_Exn {rt : Runtime} (s s' : State rt) :
  GetDeviceCount s = Exn s' -> get_available_devices rt (core s) = Throws.
Proof.
  destruct (get_available_devices rt (core s)) as [devs |] eqn:Hd;
    [| reflexivity].
  rewrite (GetDeviceCount_Ret s devs Hd). discriminate.
Qed.

Lemma GetDeviceName_never_throws {rt : Runtime} (s s' : State rt) (i : Z) :
  GetDeviceName i s <> Exn s'.
Proof.
  unfold GetDeviceName, bind, gets, at_index.
  destruct (i <? 0); [discriminate |].
  destruct (available_devices s !! Z.to_nat i); discriminate.
Qed.

Lemma PerformInference_never_throws {rt : Runtime} (s s' : State rt)
    (frame : list Byte.byte) :
  PerformInference frame s <> Exn s'.
Proof.
  rewrite PerformInference_unfold.
  destruct (inference_body frame s); discriminate.
Qed.

(** ** Loads that do not complete *)

Ltac load_prefix Hp Hr :=
  unfold LoadModel, model_to_compile in *;
  unfold bind at 1; unfold gets at 1; unfold bind at 1; rewrite Hp; simpl;
  unfold bind, gets, call, try_catch, modify, ret, throw; simpl;
  rewrite Hr; simpl.

Ltac load_indices :=
  change (Z.to_nat 1) with 1%nat; change (Z.to_nat 2) with 2%nat;
  change (Z.to_nat 3) with 3%nat.

Section PartialLoads.

Context {rt : Runtime}.

Lemma LoadModel_compile_throws (s : State rt) path index dims c m0 device :
  set_property rt (core s) "GPU" (cache_dir "cache") = Ok c ->
  read_model rt c path = Ok m0 ->
  0 <= index ->
  available_devices s !! Z.to_nat index = Some device ->
  compile_model rt c (fst (model_to_compile m0 dims)) "MULTI"
    (compile_properties device) = Throws ->
  LoadModel path index dims s
  = Exn (set_unread c (Some (fst (model_to_compile m0 dims)))
           (compiled_model s) (available_devices s) s).
Proof.
  intros Hp Hr Hi Hdev Hc. load_prefix Hp Hr.
  unfold compile_properties in Hc.
  destruct (reshape rt m0 [1; 3; snd dims; fst dims]) as [m |]; simpl in *.
  all: unfold at_index; destruct (Z.ltb_spec index 0); [lia |];
    rewrite Hdev; unfold ret; simpl; rewrite Hc; reflexivity.
Qed.

Lemma LoadModel_not_float (s : State rt) path index dims c m0 r t n w h :
  set_property rt (core s) "GPU" (cache_dir "cache") = Ok c ->
  read_model rt c path = Ok m0 ->
  load_reaches_tensor s c (fst (model_to_compile m0 dims)) index r t n w h ->
  t_type t <> f32 ->
  LoadModel path index dims s
  = Exn (set_input_data
           (match input_data s with null_ptr => null_ptr | _ => dangling end)
           (loaded_state s c (fst (model_to_compile m0 dims)) r t n w h)).
Proof.
  intros Hp Hr (device & cm & out & Hi & Hdev & Hc & Ho & Hn & Hq & Ht & Hw & Hh & Hrange) Hty.
  load_prefix Hp Hr.
  unfold compile_properties in Hc.
  destruct (reshape rt m0 [1; 3; snd dims; fst dims]) as [m |]; simpl in *.
  all: unfold at_index; destruct (Z.ltb_spec index 0); [lia |];
    rewrite Hdev; unfold ret; simpl; rewrite Hc; simpl; rewrite Ho; simpl;
    load_indices; rewrite Hn; simpl; rewrite Hq; simpl; rewrite Ht; simpl;
    rewrite Hw; simpl; rewrite Hh; simpl;
    unfold int_mul; simpl; rewrite Hrange; unfold ret; simpl;
    unfold data_float; destruct (t_type t); try contradiction; reflexivity.
Qed.

End PartialLoads.

(** ** Exceptions that leave [LoadModel] *)

Section Propagation.

Context {rt : Runtime}.

Lemma LoadModel_propagates (s : State rt) path index dims :
  propagates s path index dims ->
  exists s', LoadModel path index dims s = Exn s'.
Proof.
  intros [Hp
         | c m0 device Hp Hr Hi Hdev Hc
         | c m0 device cm Hp Hr Hi Hdev Hc Ho
         | c m0 device cm out n Hp Hr Hi Hdev Hc Ho Hn Hq
         | c m0 device cm out n r Hp Hr Hi Hdev Hc Ho Hn Hq Ht
         | c m0 r t n w h Hp Hr Hreach Hty].
  - eexists. now apply LoadModel_set_property_throws.
  - eexists. now apply (LoadModel_compile_throws s path index dims c m0 device).
  - load_prefix Hp Hr. unfold compile_properties in Hc.
    destruct (reshape rt m0 [1; 3; snd dims; fst dims]) as [m |]; simpl in *.
    all: unfold at_index; destruct (Z.ltb_spec index 0); [lia |];
      rewrite Hdev; unfold ret; simpl; rewrite Hc; simpl; rewrite Ho; simpl;
      eexists; reflexivity.
  - load_prefix Hp Hr. unfold compile_properties in Hc.
    destruct (reshape rt m0 [1; 3; snd dims; fst dims]) as [m |]; simpl in *.
    all: unfold at_index; destruct (Z.ltb_spec index 0); [lia |];
      rewrite Hdev; unfold ret; simpl; rewrite Hc; simpl; rewrite Ho; simpl;
      load_indices; rewrite Hn; simpl; rewrite Hq; simpl;
      eexists; reflexivity.
  - load_prefix Hp Hr. unfold compile_properties in Hc.
    destruct (reshape rt m0 [1; 3; snd dims; fst dims]) as [m |]; simpl in *.
    all: unfold at_index; destruct (Z.ltb_spec index 0); [lia |];
      rewrite Hdev; unfold ret; simpl; rewrite Hc; simpl; rewrite Ho; simpl;
      load_indices; rewrite Hn; simpl; rewrite Hq; simpl; rewrite Ht; simpl;
      eexists; reflexivity.
  - eexists.
    now apply (LoadModel_not_float s path index dims c m0 r t n w h).
Qed.

Lemma LoadModel_Exn_cause (s s' : State rt) path index dims :
  LoadModel path index dims s = Exn s' -> propagates s path index dims.
Proof.
  unfold LoadModel.
  unfold bind at 1. unfold gets at 1.
  unfold bind at 1.
  destruct (set_property rt (core s) "GPU" (cache_dir "cache")) as [c |] eqn:Hp;
    simpl; [| intros _; now apply from_set_property].
  unfold bind, gets, call, try_catch, modify, ret, throw. simpl.
  destruct (read_model rt c path) as [m0 |] eqn:Hr; simpl; [| discriminate].
  intros H.
  destruct (reshape rt m0 [1; 3; snd dims; fst dims]) as [m |] eqn:Hre;
    simpl in H;
    [ assert (Hm : fst (model_to_compile m0 dims) = m)
        by (unfold model_to_compile; now rewrite Hre)
    | assert (Hm : fst (model_to_compile m0 dims) = m0)
        by (unfold model_to_compile; now rewrite Hre) ].
  all: revert H; unfold at_index;
    destruct (Z.ltb_spec index 0) as [? | Hi]; [discriminate |];
    destruct (available_devices s !! Z.to_nat index) as [device |] eqn:Hdev;
      [| discriminate];
    unfold ret; simpl;
    match goal with |- context [compile_model _ ?y ?x ?d ?ps] =>
      destruct (compile_model rt y x d ps) as [cm |] eqn:Hc
    end; simpl;
    [| intros _;
       apply (from_compile_model s path index dims c m0 device Hp Hr Hi Hdev);
       rewrite Hm; exact Hc];
    destruct (output_shape rt cm) as [out |] eqn:Ho; simpl;
    [| intros _;
       apply (from_output_shape s path index dims c m0 device cm Hp Hr Hi Hdev);
       [rewrite Hm; exact Hc | exact Ho]];
    load_indices;
    destruct (out !! 1%nat) as [n |] eqn:Hn; simpl; [| discriminate];
    destruct (create_infer_request rt cm) as [r |] eqn:Hq; simpl;
    [| intros _;
       apply (from_create_infer_request s path index dims c m0 device cm out n
                Hp Hr Hi Hdev);
       [rewrite Hm; exact Hc | exact Ho | exact Hn | exact Hq]];
    destruct (get_input_tensor rt r 0) as [t |] eqn:Ht; simpl;
    [| intros _;
       apply (from_get_input_tensor s path index dims c m0 device cm out n r
                Hp Hr Hi Hdev);
       [rewrite Hm; exact Hc | exact Ho | exact Hn | exact Hq | exact Ht]];
    destruct (t_shape t !! 3%nat) as [w |] eqn:Hw; simpl; [| discriminate];
    destruct (t_shape t !! 2%nat) as [h |] eqn:Hh; simpl; [| discriminate];
    unfold int_mul; simpl;
    destruct (Int.in_range (Int.of_size_t w * Int.of_size_t h)) eqn:Hrange;
      unfold ret, undefined; simpl; [| discriminate];
    unfold data_float;
    destruct (t_type t) eqn:Hty; simpl; try discriminate;
    intros _;
    (apply (from_data_float s path index dims c m0 r t n w h Hp Hr);
     [ exists device, cm, out; rewrite Hm;
       repeat split; solve [assumption | reflexivity | lia]
     | rewrite Hty; discriminate ]).
Qed.



End Propagation.

(** C8, as the code has it. No exception leaves [PerformInference]
    (whatever throws inside becomes [-2]) nor [GetDeviceName]. An exception
    leaves [GetDeviceCount] exactly when the device enumeration throws.
    [LoadModel] turns a parse failure into 1 and, when the rest of the load
    goes through, a reshape failure into 2; an exception leaves it exactly
    when a call outside its two [try] blocks throws on its path: setting
    the cache directory, compiling, reading the output shape, creating the
    request, getting the input tensor or its float storage. *)
Theorem exceptions_at_the_export_surface {rt : Runtime} :
  (forall (s s' : State rt) frame, PerformInference frame s <> Exn s') /\
  (forall (s s' : State rt) i, GetDeviceName i s <> Exn s') /\
  (forall (s : State rt),
     (exists s', GetDeviceCount s = Exn s') <->
     get_available_devices rt (core s) = Throws) /\
  (forall (s : State rt) path index dims c,
     set_property rt (core s) "GPU" (cache_dir "cache") = Ok c ->
     read_model rt c path = Throws ->
     LoadModel path index dims s = Ret 1 (set_core c s)) /\
  (forall (s : State rt) path index dims c m0 r t n w h,
     set_property rt (core s) "GPU" (cache_dir "cache") = Ok c ->
     read_model rt c path = Ok m0 ->
     reshape rt m0 [1; 3; snd dims; fst dims] = Throws ->
     load_completes s c m0 index r t n w h ->
     LoadModel path index dims s = Ret 2 (loaded_state s c m0 r t n w h)) /\
  (forall (s : State rt) path index dims,
     (exists s', LoadModel path index dims s = Exn s') <->
     propagates s path index dims).
Proof.
  split; [intros; apply PerformInference_never_throws |].
  split; [intros; apply GetDeviceName_never_throws |].
  split.
  { intros s. split.
    - intros [s' H]. exact (GetDeviceCount_Exn s s' H).
    - intros H. eexists. exact (GetDeviceCount_throws s H). }
  split; [intros; now apply LoadModel_parse_fails |].
  split.
  { intros s path index dims c m0 r t n w h Hp Hr Hre Hall.
    assert (Hm : model_to_compile m0 dims = (m0, 2))
      by (unfold model_to_compile; now rewrite Hre).
    rewrite (LoadModel_completes s path index dims c m0 r t n w h Hp Hr);
      rewrite Hm; [reflexivity | exact Hall]. }
  intros s path index dims. split.
  - intros [s' H]. exact (LoadModel_Exn_cause s s' path index dims H).
  - apply LoadModel_propagates.
Qed.

(** ** The scenarios, run *)

(** Closed goals over the test double are settled by evaluation. *)
Ltac evaluate :=
  lazymatch goal with
  | |- _ /\ _ => split; evaluate
  | |- exists _, _ => eexists; evaluate
  | |- _ => vm_compute; first [reflexivity | discriminate]
  end.



Lemma PerformInference_fills_input_tensor_witness :
  let s := Scenario.loaded TestDouble.tie [1; 3; 2; 2] 3 2 2 in
  exists v s' source_rgb,
    PerformInference Scenario.grey s = Ret v s' /\
    strip_alpha (Z.to_nat (nPixels s)) Scenario.grey = Some source_rgb /\
    (forall p c : nat, (p < Z.to_nat (nPixels s))%nat -> (c < 3)%nat ->
       source_rgb !! (3 * p + c)%nat = Scenario.grey !! (4 * p + c)%nat) /\
    length (input_floats s') = length (input_floats s) /\
    (forall p c b, 0 <= p < nPixels s -> 0 <= c < 3 ->
       source_rgb !! Z.to_nat (p * 3 + c) = Some b ->
       input_floats s' !! Z.to_nat (c * nPixels s + p) = Some (normalize b)) /\
    (forall b,
       F32.leb F32.zero (normalize b) = true /\
       F32.leb (normalize b) F32.one = true /\
       (Qabs (F32.to_Q (normalize b) - (byte_value b # 255))
        <= (byte_value b # 255) * (1 # 2 ^ 24))%Q) /\
    (forall b0,
       (forall p c : nat, (p < Z.to_nat (nPixels s))%nat -> (c < 3)%nat ->
          Scenario.grey !! (4 * p + c)%nat = Some b0) ->
       forall i, 0 <= i < 3 * nPixels s ->
         input_floats s' !! Z.to_nat i = Some (normalize b0)).
Proof.
  apply (PerformInference_fills_input_tensor
           (Scenario.loaded TestDouble.tie [1; 3; 2; 2] 3 2 2) Scenario.grey).
  - unfold ready, writable. evaluate.
  - evaluate.
  - evaluate.
  - evaluate.
  - evaluate.
  - intros r buf r' t _ Ho. simpl in Ho. injection Ho as <-. evaluate.
Defined.

Lemma PerformInference_ignores_alpha_witness :
  PerformInference Scenario.grey
    (Scenario.loaded TestDouble.tie [1; 3; 2; 2] 3 2 2)
  = PerformInference Scenario.grey_translucent
      (Scenario.loaded TestDouble.tie [1; 3; 2; 2] 3 2 2).
Proof.
  apply (PerformInference_ignores_alpha
           (Scenario.loaded TestDouble.tie [1; 3; 2; 2] 3 2 2)
           Scenario.grey Scenario.grey_translucent).
  - vm_compute. lia.
  - vm_compute. lia.
  - intros p c Hp Hc. change (p < 4)%nat in Hp.
    destruct p as [| [| [| [| p]]]]; try lia;
      destruct c as [| [| [| c]]]; try lia; reflexivity.
Defined.

Lemma PerformInference_argmax_witness :
  let s := Scenario.loaded TestDouble.tie [1; 3; 2; 2] 3 2 2 in
  let s' := Scenario.final_state (PerformInference Scenario.grey s) s in
  (exists r' t,
     infer_request s' = Some r' /\
     get_output_tensor (TestDouble.runtime TestDouble.tie) r' = Ok t /\
     t_type t = f32 /\
     max_element (t_data t) (num_classes s) = Some 0 /\
     (num_classes s <= Z.of_nat (length (t_data t)) ->
      no_nan (t_data t) (num_classes s) ->
      first_max (t_data t) (num_classes s) 0)) /\
  max_element [F32.half; F32.half; F32.half] 3 = Some 0.
Proof.
  apply (PerformInference_argmax
           (Scenario.loaded TestDouble.tie [1; 3; 2; 2] 3 2 2)
           Scenario.grey 0
           (Scenario.final_state
              (PerformInference Scenario.grey
                 (Scenario.loaded TestDouble.tie [1; 3; 2; 2] 3 2 2))
              (Scenario.loaded TestDouble.tie [1; 3; 2; 2] 3 2 2))).
  - evaluate.
  - lia.
  - evaluate.
Defined.

Lemma LoadModel_parse_failure_keeps_state_witness :
  let s := Scenario.loaded TestDouble.tie [1; 3; 2; 2] 3 2 2 in
  let s' := Scenario.final_state (LoadModel "missing.xml" 0 (2, 2) s) s in
  read_model (TestDouble.runtime TestDouble.tie) (core s') "missing.xml" = Throws /\
  compiled_model s' = compiled_model s /\
  infer_request s' = infer_request s /\
  input_tensor s' = input_tensor s /\
  input_data s' = input_data s /\
  num_classes s' = num_classes s /\
  input_w s' = input_w s /\
  input_h s' = input_h s /\
  nPixels s' = nPixels s /\
  model s' = model s /\
  available_devices s' = available_devices s /\
  forall frame,
    PerformInference frame s'
    = outcome_map (set_core (core s')) (PerformInference frame s).
Proof.
  apply (LoadModel_parse_failure_keeps_state
           (Scenario.loaded TestDouble.tie [1; 3; 2; 2] 3 2 2)
           (Scenario.final_state
              (LoadModel "missing.xml" 0 (2, 2)
                 (Scenario.loaded TestDouble.tie [1; 3; 2; 2] 3 2 2))
              (Scenario.loaded TestDouble.tie [1; 3; 2; 2] 3 2 2))
           "missing.xml" 0 (2, 2)).
  vm_compute. reflexivity.
Defined.

(** C7, counterexample: a model without classes is loaded, and the call
    returns 0, not [-1]. *)
Lemma PerformInference_no_classes_returns_0 :
  let s := Scenario.loaded TestDouble.no_classes [1; 3; 1; 1] 0 1 1 in
  LoadModel "model.xml" 0 (1, 1) (Scenario.enumerated TestDouble.no_classes)
  = Ret 0 s /\
  num_classes s = 0 /\
  PerformInference Scenario.pixel s
  = Ret 0 (Scenario.final_state (PerformInference Scenario.pixel s) s) /\
  forall s', PerformInference Scenario.pixel s <> Ret (-1) s'.
Proof.
  split; [vm_compute; reflexivity |].
  split; [reflexivity |].
  split; [vm_compute; reflexivity |].
  intros s'. vm_compute. discriminate.
Qed.

Lemma PerformInference_no_classes_witness :
  let s := Scenario.loaded TestDouble.no_classes [1; 3; 1; 1] 0 1 1 in
  (forall v s',
     PerformInference Scenario.pixel s = Ret v s' ->
     (v = 0 /\ inference_body Scenario.pixel s = Ret 0 s') \/
     (v = -2 /\ inference_body Scenario.pixel s = Exn s')) /\
  (ready s -> outputs_hold (rt := TestDouble.runtime TestDouble.no_classes) 0 ->
   4 * nPixels s <= Z.of_nat (length Scenario.pixel) ->
   exists v s', PerformInference Scenario.pixel s = Ret v s' /\ v <> -1).
Proof.
  apply (PerformInference_no_classes
           (Scenario.loaded TestDouble.no_classes [1; 3; 1; 1] 0 1 1)
           Scenario.pixel).
  reflexivity.
Defined.

(** C8, counterexample: the device cannot compile the model, and the
    exception of [compile_model] leaves [LoadModel]. *)
Lemma LoadModel_lets_compile_failure_through :
  LoadModel "model.xml" 0 (2, 2) (Scenario.enumerated TestDouble.uncompilable)
  = Exn (set_model (rt := TestDouble.runtime TestDouble.uncompilable)
           (Some [1; 3; 2; 2])
           (set_core (Scenario.configured TestDouble.uncompilable)
              (Scenario.enumerated TestDouble.uncompilable))).
Proof. vm_compute. reflexivity. Qed.

Lemma exceptions_at_the_export_surface_witness :
  (exists s',
     LoadModel "model.xml" 0 (2, 2) (Scenario.enumerated TestDouble.uncompilable)
     = Exn s') /\
  LoadModel "model.xml" 0 (2, 2) (Scenario.enumerated TestDouble.fixed)
  = Ret 2 (Scenario.loaded TestDouble.fixed [1; 3; 2; 2] 2 2 2).
Proof.
  split.
  - apply (proj2 (proj2 (proj2 (proj2 (proj2
             (exceptions_at_the_export_surface
                (rt := TestDouble.runtime TestDouble.uncompilable))))))
             (Scenario.enumerated TestDouble.uncompilable)
             "model.xml"%string 0 (2, 2)).
    apply (from_compile_model (rt := TestDouble.runtime TestDouble.uncompilable)
             _ _ _ _ (Scenario.configured TestDouble.uncompilable)
             [1; 3; 2; 2] "CPU"%string);
      solve [reflexivity | lia].
  - apply (proj1 (proj2 (proj2 (proj2 (proj2
             (exceptions_at_the_export_surface
                (rt := TestDouble.runtime TestDouble.fixed))))))
             (Scenario.enumerated TestDouble.fixed)
             "model.xml"%string 0 (2, 2)
             (Scenario.configured TestDouble.fixed) [1; 3; 2; 2]
             [1; 3; 2; 2] (Scenario.blank [1; 3; 2; 2]) 2 2 2);
      try reflexivity.
    exists "CPU"%string, [1; 3; 2; 2], [1; 2].
    repeat (split; [first [reflexivity | lia] |]). reflexivity.
Defined.

(** * Further properties of the plugin *)

(** ** Further properties of the device registry *)

(** X1. [GetDeviceCount] rebuilds the device list from nothing: what the
    list held before the call has no influence on its outcome, and calling
    it again on the state it returned gives the same count and the same
    state (no duplicates pile up). *)
Theorem GetDeviceCount_rebuilds_the_list {rt : Runtime} (s : State rt) :
  (forall stale : list string,
     GetDeviceCount (set_available_devices stale s) = GetDeviceCount s) /\
  (forall n s', GetDeviceCount s = Ret n s' -> GetDeviceCount s' = Ret n s').
Proof.
  split.
  - intros stale.
    destruct (get_available_devices rt (core s)) as [devs |] eqn:Hd.
    + rewrite (GetDeviceCount_Ret s devs Hd).
      rewrite (GetDeviceCount_Ret (set_available_devices stale s) devs Hd).
      reflexivity.
    + rewrite (GetDeviceCount_throws s Hd).
      rewrite (GetDeviceCount_throws (set_available_devices stale s) Hd).
      reflexivity.
  - intros n s' Hrun.
    destruct (get_available_devices rt (core s)) as [devs |] eqn:Hd.
    + rewrite (GetDeviceCount_Ret s devs Hd) in Hrun.
      injection Hrun as <- <-.
      rewrite (GetDeviceCount_Ret
                 (set_available_devices (List.filter keeps devs) s) devs Hd).
      reflexivity.
    + rewrite (GetDeviceCount_throws s Hd) in Hrun. discriminate.
Qed.

(** X2. When the enumeration of the runtime throws, the exception leaves
    [GetDeviceCount] after the list has been cleared: the device list is
    empty, so every [GetDeviceName] is undefined afterwards, while the
    globals of a loaded model are untouched. *)
Theorem GetDeviceCount_failure_empties_the_list {rt : Runtime} (s : State rt) :
  get_available_devices rt (core s) = Throws ->
  exists s',
    GetDeviceCount s = Exn s' /\
    available_devices s' = [] /\
    keeps_loaded s s' /\
    forall i, GetDeviceName i s' = Undef.
Proof.
  intros Hd. exists (set_available_devices [] s).
  split; [now apply GetDeviceCount_throws |].
  split; [reflexivity |].
  split; [split; reflexivity |].
  intros i. unfold GetDeviceName, bind, gets, at_index. simpl.
  destruct (i <? 0); reflexivity.
Qed.

Lemma GetDeviceCount_failure_empties_the_list_witness :
  exists s',
    GetDeviceCount (EdgeCases.enumerated EdgeCases.unplugged []) = Exn s' /\
    available_devices s' = [] /\
    keeps_loaded (EdgeCases.enumerated EdgeCases.unplugged []) s' /\
    forall i, GetDeviceName i s' = Undef.
Proof.
  apply (GetDeviceCount_failure_empties_the_list
           (EdgeCases.enumerated EdgeCases.unplugged [])).
  reflexivity.
Defined.

(** X3. [GetDeviceName] does no range check: for an index in
    [0, count) it returns the entry at that index and leaves the globals as
    they are; for a negative index or one at or past the count its
    behaviour is undefined. *)
Theorem GetDeviceName_bounds {rt : Runtime} (s : State rt) (i : Z) :
  (0 <= i < Z.of_nat (length (available_devices s)) ->
   exists d, GetDeviceName i s = Ret d s /\
             available_devices s !! Z.to_nat i = Some d) /\
  (i < 0 \/ Z.of_nat (length (available_devices s)) <= i ->
   GetDeviceName i s = Undef).
Proof.
  unfold GetDeviceName, bind, gets, at_index. split.
  - intros Hi. destruct (Z.ltb_spec i 0); [lia |].
    destruct (lookup_lt_is_Some_2 (available_devices s) (Z.to_nat i))
      as [d Hd]; [lia |].
    exists d. rewrite Hd. split; reflexivity.
  - intros Hi. destruct (Z.ltb_spec i 0); [reflexivity |].
    rewrite (proj2 (lookup_ge_None _ _)) by lia. reflexivity.
Qed.

Lemma GetDeviceName_bounds_witness :
  (exists d, GetDeviceName 1 (Scenario.enumerated TestDouble.tie)
             = Ret d (Scenario.enumerated TestDouble.tie) /\
             available_devices (Scenario.enumerated TestDouble.tie)
               !! Z.to_nat 1 = Some d) /\
  GetDeviceName 2 (Scenario.enumerated TestDouble.tie) = Undef.
Proof.
  split.
  - apply (proj1 (GetDeviceName_bounds (Scenario.enumerated TestDouble.tie) 1)).
    vm_compute. split; [discriminate | reflexivity].
  - apply (proj2 (GetDeviceName_bounds (Scenario.enumerated TestDouble.tie) 2)).
    right. vm_compute. discriminate.
Defined.

(** ** What each function reads and writes *)

Section Footprints.

Context {rt : Runtime}.

Lemma unread_blind_ret {A} (a : A) : unread_blind (@ret rt A a).
Proof. intros c mo cm devs s. reflexivity. Qed.

Lemma unread_blind_undefined {A} : unread_blind (@undefined rt A).
Proof. intros c mo cm devs s. reflexivity. Qed.

Lemma unread_blind_throw {A} : unread_blind (@throw rt A).
Proof. intros c mo cm devs s. reflexivity. Qed.

Lemma unread_blind_call {A} (r : result A) : unread_blind (@call rt A r).
Proof. destruct r; [apply unread_blind_ret | apply unread_blind_throw]. Qed.

Lemma unread_blind_gets {A} (f : State rt -> A) :
  (forall c mo cm devs s, f (set_unread c mo cm devs s) = f s) ->
  unread_blind (gets f).
Proof. intros Hf c mo cm devs s. unfold gets. simpl. now rewrite Hf. Qed.

Lemma unread_blind_modify (f : State rt -> State rt) :
  (forall c mo cm devs s,
     f (set_unread c mo cm devs s) = set_unread c mo cm devs (f s)) ->
  unread_blind (modify f).
Proof. intros Hf c mo cm devs s. unfold modify. simpl. now rewrite Hf. Qed.

Lemma unread_blind_bind {A B} (m : M rt A) (k : A -> M rt B) :
  unread_blind m -> (forall a, unread_blind (k a)) -> unread_blind (bind m k).
Proof.
  intros Hm Hk c mo cm devs s. unfold bind. rewrite Hm.
  destruct (m s) as [a s1 | s1 |]; simpl; [apply Hk | reflexivity | reflexivity].
Qed.

Lemma unread_blind_try_catch {A} (body handler : M rt A) :
  unread_blind body -> unread_blind handler ->
  unread_blind (try_catch body handler).
Proof.
  intros Hb Hh c mo cm devs s. unfold try_catch. rewrite Hb.
  destruct (body s) as [a s1 | s1 |]; simpl; [reflexivity | apply Hh | reflexivity].
Qed.

Lemma unread_blind_for_loop (body : Z -> M rt unit) (n : nat) :
  (forall i, unread_blind (body i)) ->
  forall i, unread_blind (for_loop n i body).
Proof.
  intros Hb. induction n as [| n IH]; intros i; simpl.
  - apply unread_blind_ret.
  - apply unread_blind_bind; [apply Hb | intros _; apply IH].
Qed.

Lemma unread_blind_int_mul a b : unread_blind (@int_mul rt a b).
Proof.
  unfold int_mul. destruct (Int.in_range _);
    [apply unread_blind_ret | apply unread_blind_undefined].
Qed.

Lemma unread_blind_int_add a b : unread_blind (@int_add rt a b).
Proof.
  unfold int_add. destruct (Int.in_range _);
    [apply unread_blind_ret | apply unread_blind_undefined].
Qed.

Lemma unread_blind_at_index {A} (v : list A) i :
  unread_blind (@at_index rt A v i).
Proof.
  unfold at_index. destruct (i <? 0); [apply unread_blind_undefined |].
  destruct (v !! Z.to_nat i);
    [apply unread_blind_ret | apply unread_blind_undefined].
Qed.

Lemma unread_blind_store_input i v : unread_blind (@store_input rt i v).
Proof.
  intros c mo cm devs s. unfold store_input. simpl.
  destruct (input_data s); try reflexivity.
  destruct (input_tensor s) as [t |]; try reflexivity.
  destruct ((0 <=? i) && (i <? Z.of_nat (length (t_data t)))); reflexivity.
Qed.

Ltac unread_blind_step :=
  first [ apply unread_blind_ret | apply unread_blind_undefined
        | apply unread_blind_throw | apply unread_blind_call
        | apply unread_blind_int_mul | apply unread_blind_int_add
        | apply unread_blind_at_index | apply unread_blind_store_input
        | apply unread_blind_gets; reflexivity
        | apply unread_blind_modify; reflexivity
        | apply unread_blind_for_loop; intros ?
        | apply unread_blind_try_catch
        | apply unread_blind_bind; [| intros ?] ].

Lemma unread_blind_PerformInference (frame : list Byte.byte) :
  unread_blind (@PerformInference rt frame).
Proof.
  unfold PerformInference, inference_body, fill_input.
  repeat unread_blind_step.
  - destruct (cvtColor_RGBA2RGB _) as [r |]; repeat unread_blind_step.
  - match goal with |- unread_blind (match ?r with _ => _ end) => destruct r end;
      repeat unread_blind_step.
    match goal with |- unread_blind (match ?r with _ => _ end) => destruct r end;
      repeat unread_blind_step.
Qed.

(** *** Globals a computation leaves alone *)

Lemma preserves_ret {A B} (f : State rt -> B) (a : A) :
  preserves f (@ret rt A a).
Proof. intros s. reflexivity. Qed.

Lemma preserves_undefined {A B} (f : State rt -> B) :
  preserves f (@undefined rt A).
Proof. intros s. exact I. Qed.

Lemma preserves_throw {A B} (f : State rt -> B) : preserves f (@throw rt A).
Proof. intros s. reflexivity. Qed.

Lemma preserves_call {A B} (f : State rt -> B) (r : result A) :
  preserves f (@call rt A r).
Proof. destruct r; [apply preserves_ret | apply preserves_throw]. Qed.

Lemma preserves_gets {A B} (f : State rt -> B) (g : State rt -> A) :
  preserves f (gets g).
Proof. intros s. reflexivity. Qed.

Lemma preserves_modify {B} (f : State rt -> B) (g : State rt -> State rt) :
  (forall s, f (g s) = f s) -> preserves f (modify g).
Proof. intros Hg s. simpl. apply Hg. Qed.

Lemma preserves_bind {A B C} (f : State rt -> C) (m : M rt A) (k : A -> M rt B) :
  preserves f m -> (forall a, preserves f (k a)) -> preserves f (bind m k).
Proof.
  intros Hm Hk s. unfold bind. specialize (Hm s).
  destruct (m s) as [a s1 | s1 |]; [| exact Hm | exact I].
  specialize (Hk a s1). destruct (k a s1); congruence.
Qed.

Lemma preserves_try_catch {A C} (f : State rt -> C) (body handler : M rt A) :
  preserves f body -> preserves f handler -> preserves f (try_catch body handler).
Proof.
  intros Hb Hh s. unfold try_catch. specialize (Hb s).
  destruct (body s) as [a s1 | s1 |]; [exact Hb | | exact I].
  specialize (Hh s1). destruct (handler s1); congruence.
Qed.

Lemma preserves_for_loop {C} (f : State rt -> C) (body : Z -> M rt unit) (n : nat) :
  (forall i, preserves f (body i)) -> forall i, preserves f (for_loop n i body).
Proof.
  intros Hb. induction n as [| n IH]; intros i; simpl.
  - apply preserves_ret.
  - apply preserves_bind; [apply Hb | intros _; apply IH].
Qed.

Lemma preserves_for_each {A C} (f : State rt -> C) (body : A -> M rt unit)
    (l : list A) :
  (forall a, preserves f (body a)) -> preserves f (for_each l body).
Proof.
  intros Hb. induction l as [| a l IH]; simpl.
  - apply preserves_ret.
  - apply preserves_bind; [apply Hb | intros _; apply IH].
Qed.

Lemma preserves_int_mul {C} (f : State rt -> C) a b : preserves f (@int_mul rt a b).
Proof.
  unfold int_mul. destruct (Int.in_range _);
    [apply preserves_ret | apply preserves_undefined].
Qed.

Lemma preserves_int_add {C} (f : State rt -> C) a b : preserves f (@int_add rt a b).
Proof.
  unfold int_add. destruct (Int.in_range _);
    [apply preserves_ret | apply preserves_undefined].
Qed.

Lemma preserves_at_index {A C} (f : State rt -> C) (v : list A) i :
  preserves f (@at_index rt A v i).
Proof.
  unfold at_index. destruct (i <? 0); [apply preserves_undefined |].
  destruct (v !! Z.to_nat i); [apply preserves_ret | apply preserves_undefined].
Qed.

Lemma preserves_store_input {C} (f : State rt -> C) i v :
  (forall t s, f (set_input_tensor t s) = f s) ->
  preserves f (@store_input rt i v).
Proof.
  intros Hf s. unfold store_input.
  destruct (input_data s); try exact I.
  destruct (input_tensor s) as [t |]; try exact I.
  destruct ((0 <=? i) && (i <? Z.of_nat (length (t_data t)))); [apply Hf | exact I].
Qed.

Ltac preserves_step :=
  first [ apply preserves_ret | apply preserves_undefined
        | apply preserves_throw | apply preserves_call
        | apply preserves_gets
        | apply preserves_int_mul | apply preserves_int_add
        | apply preserves_at_index
        | apply preserves_store_input; reflexivity
        | apply preserves_modify; reflexivity
        | apply preserves_for_loop; intros ?
        | apply preserves_for_each; intros ?
        | apply preserves_try_catch
        | apply preserves_bind; [| intros ?]
        | match goal with
          | |- preserves _ (match ?x with _ => _ end) => destruct x
          | |- preserves _ (if ?x then _ else _) => destruct x
          end ].

Lemma GetDeviceCount_preserves {C} (f : State rt -> C) :
  (forall l s, f (set_available_devices l s) = f s) ->
  preserves f (@GetDeviceCount rt).
Proof.
  intros Hf. unfold GetDeviceCount.
  apply preserves_bind; [apply preserves_modify; intros; apply Hf | intros ?].
  repeat (first [ apply preserves_modify; intros; apply Hf | preserves_step ]).
Qed.

Lemma GetDeviceName_preserves {C} (f : State rt -> C) i :
  preserves f (@GetDeviceName rt i).
Proof. unfold GetDeviceName. repeat preserves_step. Qed.

Lemma LoadModel_preserves_compiled_model path index dims :
  preserves compiled_model (@LoadModel rt path index dims).
Proof. unfold LoadModel. repeat preserves_step. Qed.

Lemma LoadModel_preserves_devices path index dims :
  preserves available_devices (@LoadModel rt path index dims).
Proof. unfold LoadModel. repeat preserves_step. Qed.

Lemma PerformInference_preserves_unread frame :
  preserves (fun s => (core s, model s, compiled_model s, available_devices s))
    (@PerformInference rt frame).
Proof.
  unfold PerformInference, inference_body, fill_input. repeat preserves_step.
Qed.

End Footprints.

(** ** Inference at the edges *)

Lemma strip_alpha_None n : forall rgba,
  (length rgba < 4 * n)%nat -> strip_alpha n rgba = None.
Proof.
  induction n as [| n IH]; intros rgba Hlen; cbn [strip_alpha]; [lia |].
  destruct rgba as [| r [| g [| b [| a rest]]]]; try reflexivity.
  rewrite IH; [reflexivity |]. simpl in Hlen. lia.
Qed.

Section Edges.

Context {rt : Runtime}.

Lemma bind_Undef {A B} (m : M rt A) (k : A -> M rt B) s :
  m s = Undef -> bind m k s = Undef.
Proof. unfold bind. now intros ->. Qed.

Lemma fill_channel_without_storage (tex : Mat) (s : State rt) :
  input_data s <> input_storage -> fill_channel tex 0 0 s = Undef.
Proof.
  intros Hp.
  unfold fill_channel, num_channels.
  unfold bind at 1. unfold gets at 1.
  assert (B : forall z, z = 0 -> Int.min_int <= z <= Int.max_int).
  { intros z ->. unfold Int.min_int, Int.max_int. lia. }
  rewrite (bind_Ret _ _ _ _ _ (int_mul_Ret 0 3 s (B _ eq_refl))).
  rewrite (bind_Ret _ _ _ _ _ (int_add_Ret (0 * 3) 0 s (B _ eq_refl))).
  destruct (data tex !! Z.to_nat (0 * 3 + 0)) as [b |] eqn:Hb.
  - rewrite (bind_Ret _ _ _ _ _
               (at_index_Ret (data tex) (0 * 3 + 0) b s ltac:(lia) Hb)).
    rewrite (bind_Ret _ _ _ _ _
               (int_mul_Ret 0 (nPixels s) s (B _ eq_refl))).
    rewrite (bind_Ret _ _ _ _ _
               (int_add_Ret (0 * nPixels s) 0 s (B _ eq_refl))).
    unfold store_input.
    destruct (input_data s); try reflexivity. contradiction.
  - apply bind_Undef. unfold at_index.
    destruct (0 * 3 + 0 <? 0); [reflexivity |]. now rewrite Hb.
Qed.

Lemma fill_input_without_storage (tex : Mat) (s : State rt) :
  input_data s <> input_storage -> 0 < nPixels s ->
  fill_input tex s = Undef.
Proof.
  intros Hp Hn. unfold fill_input, bind at 1. unfold gets at 1.
  destruct (Z.to_nat (nPixels s)) as [| k] eqn:Hk; [lia |].
  cbn [for_loop]. unfold num_channels.
  change (Z.to_nat 3) with 3%nat. cbn [for_loop].
  apply bind_Undef, bind_Undef.
  exact (fill_channel_without_storage tex s Hp).
Qed.

Lemma PerformInference_without_storage (frame : list Byte.byte) (s : State rt) :
  input_data s <> input_storage ->
  0 < input_w s -> 0 < input_h s -> 0 < nPixels s ->
  PerformInference frame s = Undef.
Proof.
  intros Hp Hw Hh Hn. rewrite PerformInference_unfold, inference_body_unfold.
  unfold cvtColor_RGBA2RGB, Mat_8UC4. simpl.
  destruct (Z.leb_spec (input_h s) 0); [lia |].
  destruct (Z.leb_spec (input_w s) 0); [lia |]. simpl.
  destruct (strip_alpha _ frame) as [rgb |]; [| reflexivity].
  rewrite (bind_Undef _ _ _ (fill_input_without_storage _ s Hp Hn)).
  reflexivity.
Qed.

Lemma PerformInference_value_range (frame : list Byte.byte) (s : State rt) v s' :
  Int.in_range (num_classes s) = true ->
  PerformInference frame s = Ret v s' ->
  v = -2 \/ (0 <= v < Z.max 1 (num_classes s)).
Proof.
  intros HC Hrun. apply IntFacts.in_range_spec in HC.
  rewrite PerformInference_unfold in Hrun.
  pose proof (inference_body_cases frame s) as Hcases.
  destruct (inference_body frame s) as [v0 s0 | s0 |]; [| | discriminate].
  - injection Hrun as <- <-.
    destruct Hcases as (_ & r' & t & i & _ & _ & _ & Hm & ->).
    apply max_element_range in Hm. right.
    rewrite IntFacts.of_size_t_small by lia. lia.
  - injection Hrun as <- <-. now left.
Qed.

End Edges.

(** ** The planes of the input tensor *)

Lemma planar_cell (n : Z) (j : nat) :
  0 < n -> Z.of_nat j < 3 * n ->
  exists p c, 0 <= p < n /\ 0 <= c < 3 /\ j = Z.to_nat (c * n + p).
Proof.
  intros Hn Hj.
  exists (Z.of_nat j mod n), (Z.of_nat j / n).
  pose proof (Z.div_mod (Z.of_nat j) n ltac:(lia)) as Hdm.
  pose proof (Z.mod_pos_bound (Z.of_nat j) n Hn) as Hmod.
  split; [exact Hmod |]. split.
  - split; [apply Z.div_pos; lia | apply Z.div_lt_upper_bound; lia].
  - lia.
Qed.

Lemma written_last_frame (tex : list Byte.byte) (n : Z)
    (b0 b0' b1 b1' : list F32.t) :
  0 < n -> Z.of_nat (length tex) = 3 * n ->
  written tex n (fun p c => 0 <= p < n /\ 0 <= c < 3) b0 b1 ->
  written tex n (fun p c => 0 <= p < n /\ 0 <= c < 3) b0' b1' ->
  (forall j : nat, 3 * n <= Z.of_nat j -> b0 !! j = b0' !! j) ->
  length b0 = length b0' ->
  b1 = b1'.
Proof.
  intros Hn Htex (Hl & Hw & Ho) (Hl' & Hw' & Ho') Hfar Hlen.
  apply list_eq. intros j.
  destruct (Z.lt_ge_cases (Z.of_nat j) (3 * n)) as [Hj | Hj].
  - destruct (planar_cell n j Hn Hj) as (p & c & Hp & Hc & ->).
    destruct (lookup_lt_is_Some_2 tex (Z.to_nat (p * 3 + c))) as [b Hb]; [lia |].
    rewrite (Hw p c b (conj Hp Hc) Hb), (Hw' p c b (conj Hp Hc) Hb).
    reflexivity.
  - rewrite Ho, Ho'; [now apply Hfar | |]; intros p c [Hp Hc]; nia.
Qed.

(** ** NaN logits *)

Lemma ltb_nan_l (x : F32.t) : F32.ltb S754_nan x = false.
Proof. reflexivity. Qed.

Lemma ltb_true_not_nan (a b : F32.t) :
  F32.ltb a b = true -> F32.is_nan b = false.
Proof.
  unfold F32.ltb, SFltb, SFcompare.
  destruct a as [[] | [] | | [] ? ?], b as [[] | [] | | [] ? ?];
    simpl; congruence.
Qed.

Lemma max_element_loop_nan_first (out : list F32.t) (todo : nat) :
  forall first i,
    @eq (option F32.t) (out !! 0%nat) (Some S754_nan) ->
    max_element_loop out 0 first todo = Some i -> i = 0%nat.
Proof.
  induction todo as [| todo IH]; intros first i Hnan; cbn [max_element_loop].
  - now intros [= <-].
  - rewrite Hnan. destruct (out !! first) as [b |]; [| discriminate].
    rewrite ltb_nan_l. now apply IH.
Qed.

Lemma max_element_loop_not_nan (out : list F32.t) (todo : nat) :
  forall largest first i,
    max_element_loop out largest first todo = Some i ->
    i = largest \/ exists x, out !! i = Some x /\ F32.is_nan x = false.
Proof.
  induction todo as [| todo IH]; intros largest first i; cbn [max_element_loop].
  - intros [= <-]. now left.
  - destruct (out !! largest) as [a |]; [| discriminate].
    destruct (out !! first) as [b |] eqn:Hb; [| discriminate].
    destruct (F32.ltb a b) eqn:Hcmp; intros H; apply IH in H.
    + destruct H as [-> | H]; [| now right].
      right. exists b. split; [exact Hb | eapply ltb_true_not_nan; eassumption].
    + exact H.
Qed.

Lemma max_element_nan (out : list F32.t) (n v : Z) :
  max_element out n = Some v ->
  (@eq (option F32.t) (out !! 0%nat) (Some S754_nan) -> v = 0) /\
  (0 < v -> exists x, out !! Z.to_nat v = Some x /\ F32.is_nan x = false).
Proof.
  unfold max_element.
  destruct (n <? 0); [discriminate |].
  destruct (n =? 0); [intros [= <-]; split; [reflexivity | lia] |].
  destruct (max_element_loop out 0 1 (Z.to_nat n - 1)) as [i |] eqn:E;
    [| discriminate].
  intros [= <-]. split.
  - intros Hnan. now rewrite (max_element_loop_nan_first _ _ _ _ Hnan E).
  - intros Hv. rewrite Nat2Z.id.
    destruct (max_element_loop_not_nan _ _ _ _ _ E) as [-> | H]; [lia | exact H].
Qed.

(** ** The scale of the normalisation *)

Lemma ltb_trans (a b c : F32.t) :
  F32.ltb a b = true -> F32.ltb b c = true -> F32.ltb a c = true.
Proof.
  unfold F32.ltb, SFltb, SFcompare.
  destruct a as [[] | [] | | [] ? ?], b as [[] | [] | | [] ? ?],
           c as [[] | [] | | [] ? ?];
    simpl; try congruence.
  all: repeat match goal with
       | |- context [Z.compare ?x ?y] => destruct (Z.compare_spec x y)
       | |- context [Pos.compare_cont Eq ?x ?y] =>
           change (Pos.compare_cont Eq x y) with (Pos.compare x y);
           destruct (Pos.compare_spec x y)
       end; simpl; try congruence; try lia.
Qed.

Lemma scale_steps :
  forallb (fun k => F32.ltb (F32.div (F32.of_int (Z.of_nat k)) F32.c255)
                            (F32.div (F32.of_int (Z.of_nat (S k))) F32.c255))
          (seq 0 255) = true.
Proof. vm_compute. reflexivity. Qed.

Lemma scale_increasing (d : nat) : forall k : nat,
  (k + S d <= 255)%nat ->
  F32.ltb (F32.div (F32.of_int (Z.of_nat k)) F32.c255)
          (F32.div (F32.of_int (Z.of_nat (k + S d))) F32.c255) = true.
Proof.
  pose proof scale_steps as Hsteps. rewrite forallb_forall in Hsteps.
  induction d as [| d IH]; intros k Hk.
  - replace (k + 1)%nat with (S k) by lia. apply Hsteps. apply in_seq. lia.
  - eapply ltb_trans; [apply IH; lia |].
    replace (k + S (S d))%nat with (S (k + S d)) by lia.
    apply Hsteps. apply in_seq. lia.
Qed.

Lemma byte_value_range (b : Byte.byte) : 0 <= byte_value b <= 255.
Proof. unfold byte_value. pose proof (Byte.to_N_bounded b). lia. Qed.

(** X4. [LoadModel] does not check the device index: once the file has
    parsed, an index that is negative or not below the length of the
    device list (any index at all before the first enumeration) makes the
    call undefined, whether or not the reshape succeeded. *)
Theorem LoadModel_with_invalid_device_index {rt : Runtime} (s : State rt)
    (path : string) (index : Z) (dims : Z * Z) (c : Core rt) (m0 : Model rt) :
  set_property rt (core s) "GPU" (cache_dir "cache") = Ok c ->
  read_model rt c path = Ok m0 ->
  index < 0 \/ Z.of_nat (length (available_devices s)) <= index ->
  LoadModel path index dims s = Undef.
Proof.
  intros Hp Hr Hi. load_prefix Hp Hr.
  destruct (reshape rt m0 [1; 3; snd dims; fst dims]) as [m |]; simpl.
  all: unfold at_index; destruct (Z.ltb_spec index 0); [reflexivity |];
    rewrite (proj2 (lookup_ge_None (available_devices s) (Z.to_nat index)))
      by lia; reflexivity.
Qed.

(** X5. No exported function ever assigns the global [compiled_model]:
    [LoadModel] compiles into a local of the same name, so after any call,
    returning or throwing, the global is what it was. *)
Theorem compiled_model_is_never_assigned {rt : Runtime} :
  preserves compiled_model (@GetDeviceCount rt) /\
  (forall i, preserves compiled_model (@GetDeviceName rt i)) /\
  (forall path index dims,
     preserves compiled_model (@LoadModel rt path index dims)) /\
  (forall frame, preserves compiled_model (@PerformInference rt frame)).
Proof.
  split; [apply GetDeviceCount_preserves; reflexivity |].
  split; [intros; apply GetDeviceName_preserves |].
  split; [intros; apply LoadModel_preserves_compiled_model |].
  intros frame s. pose proof (PerformInference_preserves_unread frame s) as H.
  destruct (PerformInference frame s); [| | exact I]; congruence.
Qed.

(** X6. Who writes what: [GetDeviceCount] changes nothing but the device
    list, [GetDeviceName] changes nothing, [LoadModel] never changes the
    device list, and [PerformInference] never changes the core, the parsed
    model, the compiled model or the device list, returning or throwing. *)
Theorem device_list_is_written_by_enumeration_only {rt : Runtime} :
  preserves (fun s => (core s, model s, compiled_model s, infer_request s,
                       input_tensor s, input_data s,
                       (num_classes s, input_w s, input_h s, nPixels s)))
    (@GetDeviceCount rt) /\
  (forall i, preserves (fun s => s) (@GetDeviceName rt i)) /\
  (forall path index dims,
     preserves available_devices (@LoadModel rt path index dims)) /\
  (forall frame,
     preserves (fun s => (core s, model s, compiled_model s, available_devices s))
       (@PerformInference rt frame)).
Proof.
  split; [apply GetDeviceCount_preserves; reflexivity |].
  split; [intros; apply GetDeviceName_preserves |].
  split; [intros; apply LoadModel_preserves_devices |].
  intros; apply PerformInference_preserves_unread.
Qed.

(** X7. When [compile_model] throws, the exception leaves [LoadModel]
    with the core configured and the global [model] already replaced by
    the newly parsed (and possibly reshaped) one, but with the infer
    request, the input tensor, the cached pointer, the class count and the
    dimensions of the previous load in place: [PerformInference] goes on as
    it would have without the call. *)
Theorem LoadModel_compile_failure_keeps_previous_model {rt : Runtime}
    (s : State rt) (path : string) (index : Z) (dims : Z * Z)
    (c : Core rt) (m0 : Model rt) (device : string) :
  set_property rt (core s) "GPU" (cache_dir "cache") = Ok c ->
  read_model rt c path = Ok m0 ->
  0 <= index ->
  available_devices s !! Z.to_nat index = Some device ->
  compile_model rt c (fst (model_to_compile m0 dims)) "MULTI"
    (compile_properties device) = Throws ->
  exists s',
    LoadModel path index dims s = Exn s' /\
    core s' = c /\
    model s' = Some (fst (model_to_compile m0 dims)) /\
    infer_request s' = infer_request s /\
    input_tensor s' = input_tensor s /\
    input_data s' = input_data s /\
    num_classes s' = num_classes s /\
    input_w s' = input_w s /\
    input_h s' = input_h s /\
    nPixels s' = nPixels s /\
    forall frame,
      PerformInference frame s'
      = outcome_map (set_unread (core s') (model s') (compiled_model s')
                       (available_devices s'))
          (PerformInference frame s).
Proof.
  intros Hp Hr Hi Hdev Hc.
  eexists. split; [apply (LoadModel_compile_throws s path index dims c m0 device);
                   assumption |].
  simpl. repeat (split; [reflexivity |]).
  intros frame. apply unread_blind_PerformInference.
Qed.

(** X8. On a first load whose input tensor is not of element type [f32],
    [data<float>()] throws after the request, the tensor, the class count
    and the dimensions have been stored: the exception leaves [LoadModel]
    with positive dimensions and [input_data] still null, and every
    [PerformInference] after it writes through the null pointer (undefined
    behaviour). *)
Theorem LoadModel_non_float_input_leaves_no_storage {rt : Runtime}
    (s : State rt) (path : string) (index : Z) (dims : Z * Z)
    (c : Core rt) (m0 : Model rt) (r : InferRequest rt) (t : Tensor)
    (n w h : Z) :
  input_data s = null_ptr ->
  set_property rt (core s) "GPU" (cache_dir "cache") = Ok c ->
  read_model rt c path = Ok m0 ->
  load_reaches_tensor s c (fst (model_to_compile m0 dims)) index r t n w h ->
  t_type t <> f32 ->
  0 < Int.of_size_t w -> 0 < Int.of_size_t h ->
  exists s',
    LoadModel path index dims s = Exn s' /\
    infer_request s' = Some r /\
    input_tensor s' = Some t /\
    num_classes s' = Int.of_size_t n /\
    nPixels s' = Int.of_size_t w * Int.of_size_t h /\
    input_data s' = null_ptr /\
    forall frame, PerformInference frame s' = Undef.
Proof.
  intros Hnull Hp Hr Hreach Hty Hw Hh.
  eexists. split; [apply (LoadModel_not_float s path index dims c m0 r t n w h);
                   assumption |].
  rewrite Hnull. simpl. repeat (split; [reflexivity |]).
  intros frame. apply PerformInference_without_storage; simpl;
    [discriminate | assumption | assumption | nia].
Qed.

(** X9. [LoadModel] indexes the shape of the input tensor at 3 and 2
    without looking at its rank: for a model whose input tensor has fewer
    than four dimensions the call is undefined. *)
Theorem LoadModel_needs_a_four_dimensional_input {rt : Runtime}
    (s : State rt) (path : string) (index : Z) (dims : Z * Z)
    (c : Core rt) (m0 : Model rt) (r : InferRequest rt) (t : Tensor) (n : Z) :
  set_property rt (core s) "GPU" (cache_dir "cache") = Ok c ->
  read_model rt c path = Ok m0 ->
  load_reaches_request s c (fst (model_to_compile m0 dims)) index r t n ->
  (length (t_shape t) <= 3)%nat ->
  LoadModel path index dims s = Undef.
Proof.
  intros Hp Hr (device & cm & out & Hi & Hdev & Hc & Ho & Hn & Hq & Ht) Hrank.
  load_prefix Hp Hr.
  unfold compile_properties in Hc.
  destruct (reshape rt m0 [1; 3; snd dims; fst dims]) as [m |]; simpl in *.
  all: unfold at_index; destruct (Z.ltb_spec index 0); [lia |];
    rewrite Hdev; unfold ret; simpl; rewrite Hc; simpl; rewrite Ho; simpl;
    load_indices; rewrite Hn; simpl; rewrite Hq; simpl; rewrite Ht; simpl;
    rewrite (proj2 (lookup_ge_None (t_shape t) 3%nat)) by lia; reflexivity.
Qed.

(** X10. [nPixels = input_w * input_h] is an [int] multiplication: when
    the product of the two cached dimensions exceeds [INT_MAX] the call of
    [LoadModel] is undefined (signed overflow). *)
Theorem LoadModel_pixel_count_overflow {rt : Runtime}
    (s : State rt) (path : string) (index : Z) (dims : Z * Z)
    (c : Core rt) (m0 : Model rt) (r : InferRequest rt) (t : Tensor)
    (n w h : Z) :
  set_property rt (core s) "GPU" (cache_dir "cache") = Ok c ->
  read_model rt c path = Ok m0 ->
  load_reaches_request s c (fst (model_to_compile m0 dims)) index r t n ->
  t_shape t !! 3%nat = Some w ->
  t_shape t !! 2%nat = Some h ->
  Int.max_int < Int.of_size_t w * Int.of_size_t h ->
  LoadModel path index dims s = Undef.
Proof.
  intros Hp Hr (device & cm & out & Hi & Hdev & Hc & Ho & Hn & Hq & Ht) Hw Hh Hov.
  assert (Hrange : Int.in_range (Int.of_size_t w * Int.of_size_t h) = false).
  { unfold Int.in_range. apply andb_false_iff. right. apply Z.leb_gt. exact Hov. }
  load_prefix Hp Hr.
  unfold compile_properties in Hc.
  destruct (reshape rt m0 [1; 3; snd dims; fst dims]) as [m |]; simpl in *.
  all: unfold at_index; destruct (Z.ltb_spec index 0); [lia |];
    rewrite Hdev; unfold ret; simpl; rewrite Hc; simpl; rewrite Ho; simpl;
    load_indices; rewrite Hn; simpl; rewrite Hq; simpl; rewrite Ht; simpl;
    rewrite Hw; simpl; rewrite Hh; simpl;
    unfold int_mul; simpl; rewrite Hrange; reflexivity.
Qed.

(** X11. With a cached width or height that is not positive (as before
    any model is loaded, when both are 0) [PerformInference] returns [-2]
    for every frame and changes nothing: the conversion of the empty image
    throws before any buffer is touched. *)
Theorem PerformInference_without_dimensions {rt : Runtime} (s : State rt)
    (frame : list Byte.byte) :
  input_w s <= 0 \/ input_h s <= 0 ->
  PerformInference frame s = Ret (-2) s.
Proof.
  intros Hd. rewrite PerformInference_unfold, inference_body_unfold.
  unfold cvtColor_RGBA2RGB, Mat_8UC4. simpl.
  destruct (Z.leb_spec (input_h s) 0); simpl; [reflexivity |].
  destruct (Z.leb_spec (input_w s) 0); simpl; [reflexivity | lia].
Qed.

(** X12. [PerformInference] does not know the size of the frame it is
    given: with positive cached dimensions, a frame of fewer than
    [4 * input_h * input_w] bytes is read past its end (undefined
    behaviour). *)
Theorem PerformInference_on_a_short_frame {rt : Runtime} (s : State rt)
    (frame : list Byte.byte) :
  0 < input_w s -> 0 < input_h s ->
  Z.of_nat (length frame) < 4 * (input_h s * input_w s) ->
  PerformInference frame s = Undef.
Proof.
  intros Hw Hh Hlen. rewrite PerformInference_unfold, inference_body_unfold.
  unfold cvtColor_RGBA2RGB, Mat_8UC4. simpl.
  destruct (Z.leb_spec (input_h s) 0); [lia |].
  destruct (Z.leb_spec (input_w s) 0); [lia |]. simpl.
  rewrite strip_alpha_None by lia. reflexivity.
Qed.

(** X13. For a class count [C] that is an [int], whatever
    [PerformInference] returns is [-2] or lies in [0, max 1 C): the value
    [-1] that [class_idx] is initialised with is never returned. *)
Theorem PerformInference_never_returns_the_initial_value {rt : Runtime}
    (s : State rt) (frame : list Byte.byte) (v : Z) (s' : State rt) :
  Int.in_range (num_classes s) = true ->
  PerformInference frame s = Ret v s' ->
  v <> -1 /\ (v = -2 \/ 0 <= v < Z.max 1 (num_classes s)).
Proof.
  intros HC Hrun.
  pose proof (PerformInference_value_range frame s v s' HC Hrun) as H.
  split; [lia | exact H].
Qed.

(** X14. The input tensor keeps nothing of an earlier frame: in a ready
    state, inference on [frameA] followed by inference on [frameB] leaves
    the same floats in the storage as inference on [frameB] alone; and the
    floats past the three planes of [nPixels] are never written. *)
Theorem PerformInference_keeps_no_residue {rt : Runtime} (s : State rt)
    (frameA frameB : list Byte.byte) :
  ready s -> 0 < input_w s -> 0 < input_h s ->
  4 * nPixels s <= Z.of_nat (length frameA) ->
  4 * nPixels s <= Z.of_nat (length frameB) ->
  0 <= num_classes s -> outputs_hold (rt := rt) (num_classes s) ->
  exists vA sA vAB sAB vB sB,
    PerformInference frameA s = Ret vA sA /\
    PerformInference frameB sA = Ret vAB sAB /\
    PerformInference frameB s = Ret vB sB /\
    input_floats sAB = input_floats sB /\
    forall j : nat, 3 * nPixels s <= Z.of_nat j ->
                    input_floats sB !! j = input_floats s !! j.
Proof.
  intros Hr Hw Hh HfA HfB HC Hout.
  destruct (PerformInference_returns frameA s Hr Hw Hh HfA HC Hout)
    as (rgbA & bufA & vA & sA & HrgbA & HwrA & HrunA & HflA).
  destruct (PerformInference_returns frameB s Hr Hw Hh HfB HC Hout)
    as (rgbB & bufB & vB & sB & HrgbB & HwrB & HrunB & HflB).
  pose proof (PerformInference_stays _ _ _ _ HrunA) as Hst.
  pose proof (ready_keeps_loaded _ _ Hr (stays_keeps_loaded _ _ Hst)) as HrA.
  pose proof (stays_fields _ _ Hst)
    as (_ & _ & _ & _ & _ & Hnc & HwA & HhA & Hpx & _).
  destruct (PerformInference_returns frameB sA HrA) as
      (rgbB' & bufAB & vAB & sAB & HrgbB' & HwrAB & HrunAB & HflAB);
    try (rewrite ?HwA, ?HhA, ?Hpx, ?Hnc; assumption).
  rewrite Hpx in HrgbB', HwrAB. rewrite HrgbB in HrgbB'. injection HrgbB' as <-.
  rewrite HflA in HwrAB.
  exists vA, sA, vAB, sAB, vB, sB.
  repeat (split; [assumption |]).
  rewrite HflAB, HflB.
  assert (Hn : 0 < nPixels s) by (destruct Hr as (-> & _); nia).
  pose proof (strip_alpha_length _ _ _ HrgbB) as Hlen.
  split.
  - destruct HwrA as (HlA & _ & HoA).
    apply (written_last_frame rgbB (nPixels s) bufA (input_floats s));
      [exact Hn | lia | exact HwrAB | exact HwrB | | exact HlA].
    intros j Hj. apply HoA. intros p c [Hp Hc]. nia.
  - destruct HwrB as (_ & _ & HoB).
    intros j Hj. apply HoB. intros p c [Hp Hc]. nia.
Qed.

(** X15. NaN among the logits: [*largest < *first] is false whenever
    either side is a NaN, so when [PerformInference] returns a class index,
    a NaN first logit makes it return 0 whatever the other logits are, and
    an index above 0 never points at a NaN. *)
Theorem PerformInference_with_NaN_logits {rt : Runtime} (s : State rt)
    (frame : list Byte.byte) (v : Z) (s' : State rt) :
  PerformInference frame s = Ret v s' ->
  v <> -2 ->
  1 <= num_classes s <= Int.max_int ->
  exists r' t,
    infer_request s' = Some r' /\
    get_output_tensor rt r' = Ok t /\
    (@eq (option F32.t) (t_data t !! 0%nat) (Some S754_nan) -> v = 0) /\
    (0 < v -> exists x, t_data t !! Z.to_nat v = Some x /\ F32.is_nan x = false).
Proof.
  intros Hrun Hv HC.
  rewrite PerformInference_unfold in Hrun.
  pose proof (inference_body_cases frame s) as Hcases.
  destruct (inference_body frame s) as [v0 s0 | s0 |]; [| | discriminate].
  2:{ injection Hrun as <- <-. contradiction. }
  injection Hrun as <- <-.
  destruct Hcases as (_ & r' & t & i & Hr & Ho & _ & Hm & ->).
  pose proof (max_element_range _ _ _ Hm) as Hi.
  rewrite IntFacts.of_size_t_small by lia.
  exists r', t. split; [exact Hr |]. split; [exact Ho |].
  exact (max_element_nan _ _ _ Hm).
Qed.

(** X16. The normalisation [b / 255.0f] maps 0 to exactly [0.0f], 255 to
    exactly [1.0f], and is strictly increasing on the 256 byte values: no
    two colour levels collapse into one float. *)
Theorem normalize_strictly_increasing :
  normalize Byte.x00 = F32.zero /\
  normalize Byte.xff = F32.one /\
  forall b1 b2 : Byte.byte,
    byte_value b1 < byte_value b2 ->
    F32.ltb (normalize b1) (normalize b2) = true.
Proof.
  split; [reflexivity |]. split; [reflexivity |].
  intros b1 b2 Hlt.
  pose proof (byte_value_range b1) as H1.
  pose proof (byte_value_range b2) as H2.
  pose proof (scale_increasing
                (Z.to_nat (byte_value b2) - Z.to_nat (byte_value b1) - 1)
                (Z.to_nat (byte_value b1)) ltac:(lia)) as H.
  replace (Z.to_nat (byte_value b1)
           + S (Z.to_nat (byte_value b2) - Z.to_nat (byte_value b1) - 1))%nat
    with (Z.to_nat (byte_value b2)) in H by lia.
  rewrite !Z2Nat.id in H by lia. exact H.
Qed.

(** X17. A load that returns 0 or 2 overwrites everything about the
    model loaded before: from two states with the same core, device list
    and (never assigned) compiled model, the same call gives the same
    status and the same globals, whatever request, tensor, pointer, class
    count and dimensions the states held. *)
Theorem LoadModel_overwrites_previous_model {rt : Runtime} (s1 s2 : State rt)
    (path : string) (index : Z) (dims : Z * Z) (v : Z) (s' : State rt) :
  core s1 = core s2 ->
  available_devices s1 = available_devices s2 ->
  compiled_model s1 = compiled_model s2 ->
  LoadModel path index dims s1 = Ret v s' ->
  v <> 1 ->
  LoadModel path index dims s2 = Ret v s'.
Proof.
  intros Hcore Hdevs Hcm HL Hv.
  destruct (LoadModel_inv _ _ _ _ _ _ HL) as (c & Hp & [(_ & -> & _) | H]);
    [contradiction |].
  destruct H as (m0 & r & t & n & w & h & Hr & -> & Hc & ->).
  rewrite Hcore in Hp.
  assert (Hc2 : load_completes s2 c (fst (model_to_compile m0 dims)) index r t n w h).
  { destruct Hc as (device & cm & out & Hc). exists device, cm, out.
    rewrite <- Hdevs. exact Hc. }
  rewrite (LoadModel_completes s2 path index dims c m0 r t n w h Hp Hr Hc2).
  unfold loaded_state. now rewrite Hdevs, Hcm.
Qed.

(** X18. [PerformInference] reads only the globals of the loaded model:
    setting the core, the parsed model, the compiled model and the device
    list to anything else gives the same outcome up to those four; in
    particular enumerating the devices again between two inferences does
    not change what the next inference does. *)
Theorem PerformInference_reads_the_loaded_model_only {rt : Runtime}
    (s : State rt) (frame : list Byte.byte) :
  (forall c mo cm devs,
     PerformInference frame (set_unread c mo cm devs s)
     = outcome_map (set_unread c mo cm devs) (PerformInference frame s)) /\
  (forall n s1,
     GetDeviceCount s = Ret n s1 ->
     PerformInference frame s1
     = outcome_map (set_unread (core s1) (model s1) (compiled_model s1)
                      (available_devices s1))
         (PerformInference frame s)).
Proof.
  split.
  - intros c mo cm devs. apply unread_blind_PerformInference.
  - intros n s1 Hrun.
    destruct (get_available_devices rt (core s)) as [devs |] eqn:Hd.
    + rewrite (GetDeviceCount_Ret s devs Hd) in Hrun. injection Hrun as _ <-.
      apply (unread_blind_PerformInference frame (core s) (model s)
               (compiled_model s) (List.filter keeps devs) s).
    + rewrite (GetDeviceCount_throws s Hd) in Hrun. discriminate.
Qed.

(** ** An input tensor too small for three planes *)

Section SmallStorage.

Context {rt : Runtime}.

Lemma for_loop_last (body : Z -> M rt unit) (n : nat) :
  forall i s,
    for_loop (S n) i body s
    = bind (for_loop n i body) (fun _ => body (i + Z.of_nat n)) s.
Proof.
  induction n as [| n IH]; intros i s.
  - cbn [for_loop]. unfold bind, ret. rewrite Z.add_0_r.
    destruct (body i s) as [[] s1 | s1 |]; reflexivity.
  - change (for_loop (S (S n)) i body s)
      with (bind (body i) (fun _ => for_loop (S n) (i + 1) body) s).
    change (for_loop (S n) i body)
      with (bind (body i) (fun _ => for_loop n (i + 1) body)).
    unfold bind.
    destruct (body i s) as [[] s1 | s1 |]; [| reflexivity | reflexivity].
    rewrite IH. unfold bind.
    replace (i + 1 + Z.of_nat n) with (i + Z.of_nat (S n)) by lia.
    reflexivity.
Qed.

Lemma fill_channel_overflow (tex : Mat) p ch (s : State rt) :
  Z.of_nat (length (input_floats s)) <= ch * nPixels s + p ->
  fill_channel tex p ch s = Undef.
Proof.
  intros H.
  unfold fill_channel, bind, gets, int_mul, int_add, at_index, store_input,
    ret, undefined.
  repeat match goal with
         | |- context [Int.in_range ?z] =>
             destruct (Int.in_range z); try reflexivity
         | |- context [?a <? 0] => destruct (a <? 0); try reflexivity
         | |- context [data tex !! ?i] =>
             destruct (data tex !! i); try reflexivity
         end.
  destruct (input_data s); try reflexivity.
  unfold input_floats in H.
  destruct (input_tensor s) as [t |]; try reflexivity.
  destruct (Z.ltb_spec (ch * nPixels s + p) (Z.of_nat (length (t_data t))));
    [lia |].
  now rewrite andb_false_r.
Qed.

Lemma touches_fill_channel (tex : Mat) p ch :
  touches_floats (@fill_channel rt tex p ch).
Proof.
  unfold fill_channel.
  repeat (apply touches_bind;
          [first [apply touches_gets | apply touches_int_mul
                 | apply touches_int_add | apply touches_at_index] | intros ?]).
  apply touches_store_input.
Qed.

Lemma touches_fill_pixel (tex : Mat) p : touches_floats (@fill_pixel rt tex p).
Proof. apply touches_for_loop. intros ch. apply touches_fill_channel. Qed.

Lemma fill_pixel_overflow (tex : Mat) p (s : State rt) :
  Z.of_nat (length (input_floats s)) <= 2 * nPixels s + p ->
  fill_pixel tex p s = Undef.
Proof.
  intros H. unfold fill_pixel, num_channels.
  change (Z.to_nat 3) with 3%nat. rewrite for_loop_last.
  unfold bind.
  pose proof (touches_for_loop (fill_channel tex p) 2
                (fun ch => touches_fill_channel tex p ch) 0 s) as Ht.
  destruct (for_loop 2 0 (fill_channel tex p) s) as [[] s1 | s1 |];
    [| contradiction | reflexivity].
  destruct Ht as (buf & -> & Hl).
  apply fill_channel_overflow.
  rewrite nPixels_set_floats, length_input_floats_set_floats by exact Hl.
  exact H.
Qed.

Lemma fill_input_overflow (tex : Mat) (s : State rt) :
  0 < nPixels s ->
  Z.of_nat (length (input_floats s)) < 3 * nPixels s ->
  fill_input tex s = Undef.
Proof.
  intros Hn H.
  change (fill_input tex s)
    with (for_loop (Z.to_nat (nPixels s)) 0 (fill_pixel tex) s).
  destruct (Z.to_nat (nPixels s)) as [| k] eqn:Hk; [lia |].
  rewrite for_loop_last. unfold bind.
  pose proof (touches_for_loop (fill_pixel tex) k
                (fun p => touches_fill_pixel tex p) 0 s) as Ht.
  destruct (for_loop k 0 (fill_pixel tex) s) as [[] s1 | s1 |];
    [| contradiction | reflexivity].
  destruct Ht as (buf & -> & Hl).
  apply fill_pixel_overflow.
  rewrite nPixels_set_floats, length_input_floats_set_floats by exact Hl.
  lia.
Qed.

End SmallStorage.

(** X19. An input tensor that holds fewer than the [3 * nPixels] floats the
    loops write (a model with one or two channels, loaded with status 2):
    with a frame for positive dimensions, the call runs into undefined
    behaviour, whatever the frame holds. *)
Theorem PerformInference_overflows_a_small_input_tensor {rt : Runtime}
    (s : State rt) (frame : list Byte.byte) :
  0 < input_w s -> 0 < input_h s -> 0 < nPixels s ->
  Z.of_nat (length (input_floats s)) < 3 * nPixels s ->
  PerformInference frame s = Undef.
Proof.
  intros Hw Hh Hn Hlen. rewrite PerformInference_unfold, inference_body_unfold.
  unfold cvtColor_RGBA2RGB, Mat_8UC4. simpl.
  destruct (Z.leb_spec (input_h s) 0); [lia |].
  destruct (Z.leb_spec (input_w s) 0); [lia |]. simpl.
  destruct (strip_alpha _ frame) as [rgb |]; [| reflexivity].
  unfold bind. now rewrite fill_input_overflow.
Qed.

(** ** The edge cases, run *)

Lemma GetDeviceCount_rebuilds_the_list_witness :
  GetDeviceCount (Scenario.enumerated TestDouble.tie)
  = Ret 2 (Scenario.enumerated TestDouble.tie).
Proof.
  apply (proj2 (GetDeviceCount_rebuilds_the_list
                  (initial_state (TestDouble.runtime TestDouble.tie) []))
           2 (Scenario.enumerated TestDouble.tie)).
  evaluate.
Defined.

Lemma LoadModel_with_invalid_device_index_witness :
  LoadModel "model.xml" 0 (2, 2)
    (initial_state (TestDouble.runtime TestDouble.tie) [])
  = Undef.
Proof.
  apply (LoadModel_with_invalid_device_index
           (initial_state (TestDouble.runtime TestDouble.tie) [])
           "model.xml" 0 (2, 2) (Scenario.configured TestDouble.tie)
           [1; 3; 2; 2]).
  - reflexivity.
  - reflexivity.
  - right. evaluate.
Defined.

Lemma LoadModel_compile_failure_keeps_previous_model_witness :
  let rt := TestDouble.runtime TestDouble.uncompilable in
  let s := Scenario.loaded TestDouble.uncompilable [1; 3; 2; 2] 2 2 2 in
  let c : Core rt := ("GPU"%string, cache_dir "cache")
                     :: Scenario.configured TestDouble.uncompilable in
  exists s',
    LoadModel "model.xml" 0 (1, 1) s = Exn s' /\
    core s' = c /\
    model s' = Some (fst (model_to_compile (rt := rt) [1; 3; 2; 2] (1, 1))) /\
    infer_request s' = infer_request s /\
    input_tensor s' = input_tensor s /\
    input_data s' = input_data s /\
    num_classes s' = num_classes s /\
    input_w s' = input_w s /\
    input_h s' = input_h s /\
    nPixels s' = nPixels s /\
    forall frame,
      PerformInference frame s'
      = outcome_map (set_unread (core s') (model s') (compiled_model s')
                       (available_devices s'))
          (PerformInference frame s).
Proof.
  apply (LoadModel_compile_failure_keeps_previous_model
           (Scenario.loaded TestDouble.uncompilable [1; 3; 2; 2] 2 2 2)
           "model.xml" 0 (1, 1)
           (("GPU"%string, cache_dir "cache")
            :: Scenario.configured TestDouble.uncompilable)
           [1; 3; 2; 2] "CPU").
  - reflexivity.
  - reflexivity.
  - lia.
  - reflexivity.
  - reflexivity.
Defined.

Lemma LoadModel_non_float_input_leaves_no_storage_witness :
  exists s',
    LoadModel "model.xml" 0 (2, 2)
      (EdgeCases.enumerated EdgeCases.integer_input []) = Exn s' /\
    infer_request s' = Some [1; 3; 2; 2] /\
    input_tensor s' = Some (mkTensor [1; 3; 2; 2] i32 (repeat F32.zero 12)) /\
    num_classes s' = Int.of_size_t 3 /\
    nPixels s' = Int.of_size_t 2 * Int.of_size_t 2 /\
    input_data s' = null_ptr /\
    forall frame, PerformInference frame s' = Undef.
Proof.
  apply (LoadModel_non_float_input_leaves_no_storage
           (EdgeCases.enumerated EdgeCases.integer_input [])
           "model.xml" 0 (2, 2)
           [("GPU"%string, cache_dir "cache")] [1; 3; 2; 2] [1; 3; 2; 2]
           (mkTensor [1; 3; 2; 2] i32 (repeat F32.zero 12)) 3 2 2).
  - reflexivity.
  - reflexivity.
  - reflexivity.
  - exists "CPU"%string, [1; 3; 2; 2], [1; 3]. evaluate.
  - discriminate.
  - evaluate.
  - evaluate.
Defined.

Lemma LoadModel_needs_a_four_dimensional_input_witness :
  LoadModel "model.xml" 0 (2, 2) (EdgeCases.enumerated EdgeCases.flat_input [])
  = Undef.
Proof.
  apply (LoadModel_needs_a_four_dimensional_input
           (EdgeCases.enumerated EdgeCases.flat_input [])
           "model.xml" 0 (2, 2)
           [("GPU"%string, cache_dir "cache")] [1; 3; 2; 2] [1; 3; 2; 2]
           (mkTensor [1; 12] f32 (repeat F32.zero 12)) 3).
  - reflexivity.
  - reflexivity.
  - exists "CPU"%string, [1; 3; 2; 2], [1; 3]. evaluate.
  - simpl. lia.
Defined.

Lemma LoadModel_pixel_count_overflow_witness :
  LoadModel "model.xml" 0 (2, 2) (EdgeCases.enumerated EdgeCases.huge_input [])
  = Undef.
Proof.
  apply (LoadModel_pixel_count_overflow
           (EdgeCases.enumerated EdgeCases.huge_input [])
           "model.xml" 0 (2, 2)
           [("GPU"%string, cache_dir "cache")] [1; 3; 2; 2] [1; 3; 2; 2]
           (mkTensor [1; 3; 65536; 65536] f32 []) 3 65536 65536).
  - reflexivity.
  - reflexivity.
  - exists "CPU"%string, [1; 3; 2; 2], [1; 3]. evaluate.
  - reflexivity.
  - reflexivity.
  - evaluate.
Defined.

Lemma PerformInference_without_dimensions_witness :
  PerformInference Scenario.grey
    (initial_state (TestDouble.runtime TestDouble.tie) [])
  = Ret (-2) (initial_state (TestDouble.runtime TestDouble.tie) []).
Proof.
  apply (PerformInference_without_dimensions
           (initial_state (TestDouble.runtime TestDouble.tie) [])
           Scenario.grey).
  left. evaluate.
Defined.

Lemma PerformInference_on_a_short_frame_witness :
  PerformInference Scenario.pixel
    (Scenario.loaded TestDouble.tie [1; 3; 2; 2] 3 2 2)
  = Undef.
Proof.
  apply (PerformInference_on_a_short_frame
           (Scenario.loaded TestDouble.tie [1; 3; 2; 2] 3 2 2) Scenario.pixel).
  - evaluate.
  - evaluate.
  - evaluate.
Defined.

Lemma PerformInference_never_returns_the_initial_value_witness :
  0 <> -1 /\ (0 = -2 \/ 0 <= 0 < Z.max 1 3).
Proof.
  apply (PerformInference_never_returns_the_initial_value
           (Scenario.loaded TestDouble.tie [1; 3; 2; 2] 3 2 2)
           Scenario.grey 0
           (Scenario.final_state
              (PerformInference Scenario.grey
                 (Scenario.loaded TestDouble.tie [1; 3; 2; 2] 3 2 2))
              (Scenario.loaded TestDouble.tie [1; 3; 2; 2] 3 2 2))).
  - evaluate.
  - evaluate.
Defined.

Lemma PerformInference_keeps_no_residue_witness :
  let s := Scenario.loaded TestDouble.tie [1; 3; 2; 2] 3 2 2 in
  exists vA sA vAB sAB vB sB,
    PerformInference EdgeCases.red s = Ret vA sA /\
    PerformInference Scenario.grey sA = Ret vAB sAB /\
    PerformInference Scenario.grey s = Ret vB sB /\
    input_floats sAB = input_floats sB /\
    forall j : nat, 3 * nPixels s <= Z.of_nat j ->
                    input_floats sB !! j = input_floats s !! j.
Proof.
  apply (PerformInference_keeps_no_residue
           (Scenario.loaded TestDouble.tie [1; 3; 2; 2] 3 2 2)
           EdgeCases.red Scenario.grey).
  - unfold ready, writable. evaluate.
  - evaluate.
  - evaluate.
  - evaluate.
  - evaluate.
  - evaluate.
  - intros r buf r' t _ Ho. simpl in Ho. injection Ho as <-. evaluate.
Defined.

Lemma PerformInference_with_NaN_logits_witness :
  let s := Scenario.loaded EdgeCases.nan_first [1; 3; 2; 2] 3 2 2 in
  let s' := Scenario.final_state (PerformInference Scenario.grey s) s in
  exists r' t,
    infer_request s' = Some r' /\
    get_output_tensor (TestDouble.runtime EdgeCases.nan_first) r' = Ok t /\
    (@eq (option F32.t) (t_data t !! 0%nat) (Some S754_nan) -> 0 = 0) /\
    (0 < 0 -> exists x, t_data t !! Z.to_nat 0 = Some x /\ F32.is_nan x = false).
Proof.
  apply (PerformInference_with_NaN_logits
           (Scenario.loaded EdgeCases.nan_first [1; 3; 2; 2] 3 2 2)
           Scenario.grey 0
           (Scenario.final_state
              (PerformInference Scenario.grey
                 (Scenario.loaded EdgeCases.nan_first [1; 3; 2; 2] 3 2 2))
              (Scenario.loaded EdgeCases.nan_first [1; 3; 2; 2] 3 2 2))).
  - evaluate.
  - lia.
  - evaluate.
Defined.

Lemma normalize_strictly_increasing_witness :
  F32.ltb (normalize Byte.x7f) (normalize Byte.x80) = true.
Proof.
  apply (proj2 (proj2 normalize_strictly_increasing) Byte.x7f Byte.x80).
  evaluate.
Defined.

Lemma LoadModel_overwrites_previous_model_witness :
  let s1 := Scenario.loaded TestDouble.tie [1; 3; 2; 2] 3 2 2 in
  let s2 := set_core (Scenario.configured TestDouble.tie)
              (Scenario.enumerated TestDouble.tie) in
  LoadModel "model.xml" 0 (1, 1) s2
  = Ret 0 (Scenario.final_state (LoadModel "model.xml" 0 (1, 1) s1) s1).
Proof.
  apply (LoadModel_overwrites_previous_model
           (Scenario.loaded TestDouble.tie [1; 3; 2; 2] 3 2 2)
           (set_core (Scenario.configured TestDouble.tie)
              (Scenario.enumerated TestDouble.tie))
           "model.xml" 0 (1, 1) 0).
  - reflexivity.
  - reflexivity.
  - reflexivity.
  - evaluate.
  - lia.
Defined.

Lemma PerformInference_reads_the_loaded_model_only_witness :
  let s := Scenario.loaded TestDouble.tie [1; 3; 2; 2] 3 2 2 in
  let s1 := Scenario.final_state (GetDeviceCount s) s in
  PerformInference Scenario.grey s1
  = outcome_map (set_unread (core s1) (model s1) (compiled_model s1)
                   (available_devices s1))
      (PerformInference Scenario.grey s).
Proof.
  apply (proj2 (PerformInference_reads_the_loaded_model_only
                  (Scenario.loaded TestDouble.tie [1; 3; 2; 2] 3 2 2)
                  Scenario.grey)
           2
           (Scenario.final_state
              (GetDeviceCount (Scenario.loaded TestDouble.tie [1; 3; 2; 2] 3 2 2))
              (Scenario.loaded TestDouble.tie [1; 3; 2; 2] 3 2 2))).
  evaluate.
Defined.

Lemma PerformInference_overflows_a_small_input_tensor_witness :
  PerformInference Scenario.grey
    (Scenario.loaded EdgeCases.one_channel [1; 1; 2; 2] 2 2 2) = Undef.
Proof.
  apply (PerformInference_overflows_a_small_input_tensor
           (Scenario.loaded EdgeCases.one_channel [1; 1; 2; 2] 2 2 2)
           Scenario.grey); vm_compute; reflexivity.
Defined.
